(** * Wildfire dashboard: fire-spread footprint, impact ranking, prediction
      fallback and prediction history

    A shallow embedding of the front end of the wildfire decision-support
    dashboard:

    - [RealFireMap]: the client-side spread ellipse of
      [components/RealFireMap.tsx] together with [acresToRadius] of
      [lib/api.ts];
    - [FireMapViewer]: the viewer of [components/FireMapViewer.tsx] that
      shows the reply of the map endpoint;
    - [Impact]: the impact engine behind that endpoint, which is not among
      the sources and is modelled from its specification;
    - [Api]: the prediction call of [lib/api.ts] and its demo fallback;
    - [Storage]: the prediction history of [lib/storage.ts].

    JavaScript numbers are read as exact numbers: real numbers where the code
    calls [Math.cos], [Math.sin], [Math.sqrt] or uses [Math.PI] (which is read
    as the number pi), rationals elsewhere.  Rounding of IEEE doubles, NaN and
    the infinities are outside that reading: what is proved about computed
    positions holds in the source up to the rounding of its doubles, and a
    bit-for-bit equality of two computed positions (the last sample of the
    ellipse repeating the first) is not stated.  Two places leave that
    reading: the radius handed to the map viewer carries the NaN of
    [Math.sqrt], and the score animation of the gauge, whose running sum
    depends on rounding, runs on binary64 floats. *)

From Stdlib Require Import Reals Lra Lia List ZArith Bool String.
From Stdlib Require Import QArith Qminmax Qround Qreals.
From Stdlib Require Import Sorted Permutation Mergesort Orders RelationClasses.
From Stdlib Require OrderedTypeEx Lqa Floats.
Import ListNotations.

(** ** Numbers of the source, over the reals *)

Module JsReal.
Local Open Scope R_scope.

(** [Math.floor] as an integer. *)
Definition floor (x : R) : Z := Int_part x.

(** [Math.round]: the nearest integer, halves going up. *)
Definition round (x : R) : Z := floor (x + / 2).

(** [Math.trunc], the integer part towards zero. *)
Definition trunc (x : R) : Z :=
  if Rle_dec 0 x then floor x else (- floor (- x))%Z.

(** The remainder operator [a % b] on numbers: the sign follows the
    dividend. *)
Definition rem (a b : R) : R := a - b * IZR (trunc (a / b)).

End JsReal.

(** ** The spread ellipse of [RealFireMap.tsx] *)

Module RealFireMap.
Local Open Scope R_scope.

(** A GeoJSON position [[lng, lat]]. *)
Definition LngLat : Type := (R * R)%type.

(** The numeric properties of the component. *)
Record RealFireMapProps : Type := mkProps {
  latitude : R;
  longitude : R;
  predictedAcres : R;
  windSpeed : R;
  windDirection : R
}.

(** The part of the component state the fire layers read: whether
    [map.current] is set, the [mapLoaded] flag and [animationProgress]. *)
Record MapState : Type := mkState {
  mapCurrent : bool;
  mapLoaded : bool;
  animationProgress : R
}.

(** [acresToRadius] of [lib/api.ts]: radius in metres of the disc of the given
    area in acres. *)
Definition acresToRadius (acres : R) : R :=
  let sqFeet := acres * 43560 in
  let radiusFeet := sqrt (sqFeet / PI) in
  radiusFeet * 0.3048.

(** [getElongationFactor]: the stretch of the major axis, by wind band. *)
Definition getElongationFactor (windSpeed : R) : R :=
  if Rle_dec windSpeed 5 then 1.2
  else if Rle_dec windSpeed 15 then 1.8
  else if Rle_dec windSpeed 25 then 2.5
  else 3.5.

(** The body of the sampling loop of [createEllipseCoordinates]: the position
    pushed at index [i]. *)
Definition ellipsePoint (centerLng centerLat majorAxisMeters minorAxisMeters
                         rotationRad : R) (numPoints i : nat) : LngLat :=
  let angle := INR i / INR numPoints * 2 * PI in
  let x := majorAxisMeters * cos angle in
  let y := minorAxisMeters * sin angle in
  let rotatedX := x * cos rotationRad - y * sin rotationRad in
  let rotatedY := x * sin rotationRad + y * cos rotationRad in
  let latOffset := rotatedY / 111320 in
  let lngOffset := rotatedX / (111320 * cos (centerLat * PI / 180)) in
  (centerLng + lngOffset, centerLat + latOffset).

(** The loop [for (let i = 0; i <= numPoints; i++) coordinates.push(...)]:
    [remaining] counts the iterations still to run. *)
Fixpoint ellipseLoop (point : nat -> LngLat) (remaining i : nat)
                     (coordinates : list LngLat) : list LngLat :=
  match remaining with
  | O => coordinates
  | S remaining' => ellipseLoop point remaining' (S i) (coordinates ++ [point i])
  end.

Definition defaultNumPoints : nat := 64.

Definition createEllipseCoordinates
    (centerLng centerLat majorAxisMeters minorAxisMeters rotationDegrees : R)
    (numPoints : nat) : list LngLat :=
  let rotationRad := rotationDegrees * PI / 180 in
  ellipseLoop
    (ellipsePoint centerLng centerLat majorAxisMeters minorAxisMeters
                  rotationRad numPoints)
    (S numPoints) 0 [].

(** What one run of [updateFireLayers] computes and puts on the map. *)
Record FireLayers : Type := mkLayers {
  currentRadius : R;
  majorAxis : R;
  minorAxis : R;
  rotationAngle : R;
  (** the centre handed to [createEllipseCoordinates] *)
  ellipseCenter : LngLat;
  ellipseCoords : list LngLat;
  outerGlowCoords : list LngLat;
  (** the glow and main polygons, added only when [currentRadius > 10] *)
  spreadPolygons : option (list LngLat * list LngLat);
  (** where the fire-origin marker is set *)
  originMarker : LngLat
}.

(** [updateFireLayers]: nothing happens until the map exists and is loaded. *)
Definition updateFireLayers (p : RealFireMapProps) (s : MapState)
  : option FireLayers :=
  if negb (mapCurrent s) || negb (mapLoaded s) then None
  else
    let radiusMeters := acresToRadius (predictedAcres p) in
    let elongation := getElongationFactor (windSpeed p) in
    let currentRadius := radiusMeters * (animationProgress s / 100) in
    let majorAxis := currentRadius * elongation in
    let minorAxis := currentRadius in
    (* Wind direction points where fire spreads TO *)
    let rotationAngle := windDirection p in
    let ellipseCoords :=
      createEllipseCoordinates (longitude p) (latitude p) majorAxis minorAxis
                               rotationAngle defaultNumPoints in
    let outerGlowCoords :=
      createEllipseCoordinates (longitude p) (latitude p) (majorAxis * 1.3)
                               (minorAxis * 1.3) rotationAngle defaultNumPoints in
    Some {| currentRadius := currentRadius;
            majorAxis := majorAxis;
            minorAxis := minorAxis;
            rotationAngle := rotationAngle;
            ellipseCenter := (longitude p, latitude p);
            ellipseCoords := ellipseCoords;
            outerGlowCoords := outerGlowCoords;
            spreadPolygons :=
              if Rlt_dec 10 currentRadius
              then Some (outerGlowCoords, ellipseCoords) else None;
            originMarker := (longitude p, latitude p) |}.

Definition directions : list string :=
  ["N"; "NE"; "E"; "SE"; "S"; "SW"; "W"; "NW"]%string.

(** [getWindLabel]: [directions[Math.round(direction / 45) % 8]]; an index
    outside the array reads [undefined], here [None]. *)
Definition getWindLabel (direction : R) : option string :=
  let index := Z.rem (JsReal.round (direction / 45)) 8 in
  if (index <? 0)%Z then None else nth_error directions (Z.to_nat index).

(** The wind line of the legend, rendered only when [windSpeed > 0]:
    "Wind: <speed> mph from <label>". *)
Definition windLegend (p : RealFireMapProps) : option (R * option string) :=
  if Rlt_dec 0 (windSpeed p)
  then Some (windSpeed p,
             getWindLabel (JsReal.rem (windDirection p + 180) 360))
  else None.

(** The properties with another wind speed, everything else fixed. *)
Definition withWindSpeed (p : RealFireMapProps) (w : R) : RealFireMapProps :=
  {| latitude := latitude p; longitude := longitude p;
     predictedAcres := predictedAcres p; windSpeed := w;
     windDirection := windDirection p |}.

(** The properties with another wind direction, everything else fixed. *)
Definition withWindDirection (p : RealFireMapProps) (d : R)
  : RealFireMapProps :=
  {| latitude := latitude p; longitude := longitude p;
     predictedAcres := predictedAcres p; windSpeed := windSpeed p;
     windDirection := d |}.

(** *** Measures and scenarios used to state the properties *)

(** The distance in metres between the centre of the ellipse and the origin
    marker, on the scale the component itself uses for metres per degree. *)
Definition centerDisplacement (L : FireLayers) : R :=
  let dy := (snd (ellipseCenter L) - snd (originMarker L)) * 111320 in
  let dx := (fst (ellipseCenter L) - fst (originMarker L))
            * (111320 * cos (snd (originMarker L) * PI / 180)) in
  sqrt (dx * dx + dy * dy).

(** Scenario B of the specification: central California, wind 30 and wind
    direction 245;
    a fire of 100 acres with the spread animation complete. *)
Definition scenarioB : RealFireMapProps :=
  {| latitude := 36.7783; longitude := -119.4179; predictedAcres := 100;
     windSpeed := 30; windDirection := 245 |}.

Definition animationDone : MapState :=
  {| mapCurrent := true; mapLoaded := true; animationProgress := 100 |}.

(** The clamp of the specification's stretch formula,
    [clamp(x, lo, hi) = max(lo, min(x, hi))]. *)
Definition specClamp (x lo hi : R) : R := Rmax lo (Rmin x hi).

End RealFireMap.

(** ** The prediction call of [lib/api.ts] and its demo fallback *)

Module Api.
Local Open Scope Q_scope.
Local Open Scope string_scope.

(** [PredictionRequest] of [types/prediction]; the two wind fields are
    optional. *)
Record PredictionRequest : Type := mkRequest {
  mean_temp : Q;
  max_temp : Q;
  min_temp : Q;
  discovery_temp : Q;
  req_latitude : Q;
  req_longitude : Q;
  state : string;
  cause : string;
  month : Q;
  day_of_year : Q;
  season : string;
  num_cities : Q;
  wind_speed : option Q;
  wind_direction : option Q
}.

Record PredictionResponse : Type := mkResponse {
  predicted_acres : Q;
  predicted_hectares : Q;
  risk_score : Q;
  risk_category : string;
  risk_color : string;
  fire_size_class : string;
  response_level : string;
  resources : string;
  actions : list string;
  estimated_duration : string
}.

(** What [getRiskDetails] returns. *)
Record RiskDetails : Type := mkDetails {
  category : string;
  color : string;
  sizeClass : string;
  responseLevel : string;
  details_resources : string;
  details_actions : list string;
  duration : string
}.

(** The comparison [a < b] on numbers. *)
Definition ltb (a b : Q) : bool := negb (Qle_bool b a).

(** [Math.round]: nearest integer, halves going up. *)
Definition round (x : Q) : Q := inject_Z (Qfloor (x + (1 # 2))).

Definition getRiskDetails (score : Q) : RiskDetails :=
  if ltb score 20 then
    {| category := "Very Low";
       color := "#2ECC71";
       sizeClass := "A";
       responseLevel := "MINIMAL RESPONSE";
       details_resources := "1 engine, 2-4 personnel";
       details_actions :=
         [ "Monitor fire progression";
           "Establish initial attack perimeter";
           "Document fire origin and cause";
           "Coordinate with local dispatch" ];
       duration := "1-4 hours" |}
  else if ltb score 40 then
    {| category := "Low";
       color := "#3498DB";
       sizeClass := "B";
       responseLevel := "STANDARD RESPONSE";
       details_resources := "2-3 engines, 6-10 personnel";
       details_actions :=
         [ "Deploy ground crews immediately";
           "Establish containment lines";
           "Request weather updates";
           "Notify nearby property owners";
           "Set up incident command post" ];
       duration := "4-12 hours" |}
  else if ltb score 60 then
    {| category := "Moderate";
       color := "#F39C12";
       sizeClass := "C-D";
       responseLevel := "ELEVATED RESPONSE";
       details_resources := "4-6 engines, 15-30 personnel, 1 helicopter";
       details_actions :=
         [ "Request mutual aid from neighboring districts";
           "Deploy aerial reconnaissance";
           "Establish multiple containment lines";
           "Begin evacuation advisories for at-risk areas";
           "Set up staging area for additional resources";
           "Activate public information officer" ];
       duration := "12-48 hours" |}
  else if ltb score 80 then
    {| category := "High";
       color := "#E67E22";
       sizeClass := "E-F";
       responseLevel := "MAJOR RESPONSE";
       details_resources := "10+ engines, 50-100 personnel, 2-4 aircraft";
       details_actions :=
         [ "Issue mandatory evacuation orders";
           "Request state emergency resources";
           "Deploy multiple air tankers";
           "Establish unified command structure";
           "Coordinate with law enforcement for evacuations";
           "Set up emergency shelters";
           "Activate emergency broadcast system";
           "Request National Guard assistance if needed" ];
       duration := "2-7 days" |}
  else
    {| category := "Critical";
       color := "#E74C3C";
       sizeClass := "G";
       responseLevel := "EMERGENCY RESPONSE - CRITICAL";
       details_resources :=
         "20+ engines, 200+ personnel, 6+ aircraft, National resources";
       details_actions :=
         [ "IMMEDIATE: Issue emergency evacuation orders";
           "Request federal disaster assistance";
           "Deploy all available air resources";
           "Establish Type 1 Incident Management Team";
           "Coordinate multi-agency unified command";
           "Activate all mutual aid agreements";
           "Request military support";
           "Establish multiple evacuation routes";
           "Deploy mass casualty incident protocols";
           "Coordinate with FEMA" ];
       duration := "1-4+ weeks" |}.

(** The risk score of the demo prediction, before it is used: the running
    [riskScore] variable after the clamp. *)
Definition mockRiskScore (data : PredictionRequest) : Q :=
  let riskScore := 50 in
  (* Temperature factors *)
  let tempRange := max_temp data - min_temp data in
  let riskScore := riskScore + Qmin (tempRange * 0.5) 15 in
  let riskScore := riskScore + Qmax 0 ((max_temp data - 30) * 2) in
  (* Wind factor: taken when [data.wind_speed] is truthy *)
  let riskScore :=
    match wind_speed data with
    | Some w => if Qeq_bool w 0 then riskScore
                else riskScore + Qmin (w * 0.8) 20
    | None => riskScore
    end in
  (* Season factor *)
  let riskScore :=
    if String.eqb (season data) "Summer" then riskScore + 10 else riskScore in
  let riskScore :=
    if String.eqb (season data) "Fall" then riskScore + 5 else riskScore in
  (* Cause factor *)
  let riskScore :=
    if String.eqb (cause data) "Arson" then riskScore + 15 else riskScore in
  let riskScore :=
    if String.eqb (cause data) "Lightning" then riskScore + 10
    else riskScore in
  (* Clamp score *)
  Qmax 0 (Qmin 100 riskScore).

(** The acreage drawn for a risk score; [random] is the value the one
    [Math.random()] call of the chosen branch returns, a number in [0, 1). *)
Definition mockPredictedAcres (riskScore random : Q) : Q :=
  if ltb riskScore 20 then random * 10
  else if ltb riskScore 40 then 10 + random * 90
  else if ltb riskScore 60 then 100 + random * 900
  else if ltb riskScore 80 then 1000 + random * 9000
  else 10000 + random * 40000.

(** [generateMockPrediction], with the random draw made explicit. *)
Definition generateMockPrediction (data : PredictionRequest) (random : Q)
  : PredictionResponse :=
  let riskScore := mockRiskScore data in
  let predictedAcres := mockPredictedAcres riskScore random in
  let d := getRiskDetails riskScore in
  {| predicted_acres := round (predictedAcres * 10) / 10;
     predicted_hectares := round (predictedAcres * 0.404686 * 10) / 10;
     risk_score := round riskScore;
     risk_category := category d;
     risk_color := color d;
     fire_size_class := sizeClass d;
     response_level := responseLevel d;
     resources := details_resources d;
     actions := details_actions d;
     estimated_duration := duration d |}.

(** How the [fetch] of the [/predict] endpoint ends. *)
Inductive FetchOutcome : Type :=
| FetchFailed                              (* the promise rejects *)
| FetchNotOk (statusText : string)          (* [response.ok] is false *)
| FetchOk (body : PredictionResponse).      (* the parsed JSON body *)

(** [predictFireSize]: the backend's answer when there is one, the demo
    prediction otherwise ([fetch] fails, or the status is not ok and the
    thrown error is caught). *)
Definition predictFireSize (data : PredictionRequest)
    (backend : FetchOutcome) (random : Q) : PredictionResponse :=
  match backend with
  | FetchOk body => body
  | FetchNotOk _ | FetchFailed => generateMockPrediction data random
  end.

(** *** A scenario used to state the properties *)

(** A summer lightning fire with a 10 mph wind: risk score 83. *)
Definition lightningFire : PredictionRequest :=
  {| mean_temp := 25; max_temp := 30; min_temp := 20; discovery_temp := 28;
     req_latitude := 36.7783; req_longitude := -119.4179;
     state := "CA"; cause := "Lightning"; month := 7; day_of_year := 200;
     season := "Summer"; num_cities := 3;
     wind_speed := Some 10; wind_direction := Some 245 |}.

End Api.

(** ** The prediction history of [lib/storage.ts] *)

Module Storage.
Local Open Scope string_scope.

Record Location : Type := mkLocation {
  lat : Q;
  lon : Q;
  loc_state : string
}.

(** [HistoricalPrediction] of [types/prediction]. *)
Record HistoricalPrediction : Type := mkHistorical {
  id : string;
  timestamp : string;
  location : Location;
  inputs : Api.PredictionRequest;
  prediction : Api.PredictionResponse
}.

Definition STORAGE_KEY : string := "fsp_predictions_history".

(** The operations of the store, for runs of several calls. *)
Inductive Call : Type :=
| Save (prediction : HistoricalPrediction)
| Delete (id' : string)
| Clear.

Section LocalStorage.

(** The texts [localStorage] holds, and the two JSON functions of the
    platform on them.  [truthy] is the test [data ? ... : ...] on a text that
    is present: false exactly on the empty text.  [JSON_parse] is [None] where
    [JSON.parse] throws; as [getHistory] is typed to return
    [HistoricalPrediction[]], a text that parses to something else than such
    an array is outside the model, and so is a [setItem] that throws for lack
    of space. *)
Variable Text : Type.
Variable truthy : Text -> bool.
Variable JSON_stringify : list HistoricalPrediction -> Text.
Variable JSON_parse : Text -> option (list HistoricalPrediction).

(** [localStorage]: at most one text per key. *)
Definition LocalStorage : Type := string -> option Text.

Definition getItem (ls : LocalStorage) (key : string) : option Text := ls key.

Definition setItem (ls : LocalStorage) (key : string) (value : Text)
  : LocalStorage :=
  fun k => if String.eqb k key then Some value else ls k.

Definition removeItem (ls : LocalStorage) (key : string) : LocalStorage :=
  fun k => if String.eqb k key then None else ls k.

(** [getHistory]: the parsed history; [[]] when the item is absent or empty,
    and when parsing throws. *)
Definition getHistory (ls : LocalStorage) : list HistoricalPrediction :=
  match getItem ls STORAGE_KEY with
  | Some data =>
      if truthy data then
        match JSON_parse data with
        | Some history => history
        | None => []
        end
      else []
  | None => []
  end.

(** [savePrediction]: [unshift] the prediction, keep the first 50, store. *)
Definition savePrediction (prediction : HistoricalPrediction)
    (ls : LocalStorage) : LocalStorage :=
  let history := getHistory ls in
  let history := prediction :: history in
  (* Keep only last 50 predictions *)
  let trimmed := firstn 50 history in
  setItem ls STORAGE_KEY (JSON_stringify trimmed).

(** [deletePrediction]: store the history without the entries of that id. *)
Definition deletePrediction (id' : string) (ls : LocalStorage)
  : LocalStorage :=
  let history :=
    filter (fun p => negb (String.eqb (id p) id')) (getHistory ls) in
  setItem ls STORAGE_KEY (JSON_stringify history).

Definition clearHistory (ls : LocalStorage) : LocalStorage :=
  removeItem ls STORAGE_KEY.

(** One call of the module, and the calls of a list made from left to
    right. *)
Definition call (c : Call) (ls : LocalStorage) : LocalStorage :=
  match c with
  | Save prediction => savePrediction prediction ls
  | Delete id' => deletePrediction id' ls
  | Clear => clearHistory ls
  end.

Definition calls (cs : list Call) (ls : LocalStorage) : LocalStorage :=
  fold_left (fun ls c => call c ls) cs ls.

End LocalStorage.

(** A concrete store: a text is either one that [JSON.parse] rejects or the
    serialisation of a history. *)
Inductive StoredText : Type :=
| Malformed (text : string)
| Serialized (history : list HistoricalPrediction).

Definition storedTruthy (t : StoredText) : bool :=
  match t with
  | Malformed text => negb (String.eqb text "")
  | Serialized _ => true
  end.

Definition storedParse (t : StoredText) : option (list HistoricalPrediction) :=
  match t with
  | Malformed _ => None
  | Serialized history => Some history
  end.

(** The first entry of a history, in the concrete store. *)
Definition firstEntry : HistoricalPrediction :=
  {| id := "pred_1700000000000_k3j9x2m1q";
     timestamp := "2023-11-14T22:13:20.000Z";
     location := {| lat := 36.7783; lon := -119.4179; loc_state := "CA" |}%Q;
     inputs := Api.lightningFire;
     prediction := Api.generateMockPrediction Api.lightningFire 0 |}.

Definition emptyStore : LocalStorage StoredText := fun _ => None.

End Storage.

(** ** The map viewer of [FireMapViewer.tsx] *)

Module FireMapViewer.

(** [AffectedCounty] and [FireMapResponse] of [lib/api.ts]. *)
Record AffectedCounty : Type := mkAffected {
  county : string;
  state : string;
  population : Q;
  affected_share : Q;
  contributing_pop : Q
}.

Record FireMapResponse : Type := mkMapResponse {
  map_url : string;
  total_population : Q;
  affected_counties : list AffectedCounty;
  radius_km : Q;
  center_lat : Q;
  center_lon : Q
}.

(** How [generateFireMap] ends: it throws with a message, or returns the
    parsed body. *)
Inductive FireMapOutcome : Type :=
| MapFailed (message : string)
| MapOk (data : FireMapResponse).

(** The state of the component the render reads. *)
Record ViewerState : Type := mkViewer {
  mapData : option FireMapResponse;
  loading : bool;
  error : option string
}.

(** [fetchMap], from its first line to the end of [finally]. *)
Definition fetchMap (outcome : FireMapOutcome) (st : ViewerState)
  : ViewerState :=
  match outcome with
  | MapOk data => {| mapData := Some data; loading := false; error := None |}
  | MapFailed message =>
      {| mapData := mapData st; loading := false; error := Some message |}
  end.

(** The population panel: the three figures, the list under "Most Affected
    Counties" (present when there is a county) and the "+n more counties" line
    (present beyond six). *)
Record PopulationPanel : Type := mkPanel {
  affectedPopulation : Q;
  fireRadius : Q;
  countiesAffected : nat;
  mostAffected : option (list AffectedCounty);
  moreCounties : option nat
}.

Definition populationPanel (data : FireMapResponse) : PopulationPanel :=
  let n := List.length (affected_counties data) in
  {| affectedPopulation := total_population data;
     fireRadius := radius_km data;
     countiesAffected := n;
     mostAffected :=
       if (0 <? n)%nat then Some (firstn 6 (affected_counties data)) else None;
     moreCounties := if (6 <? n)%nat then Some (n - 6)%nat else None |}.

Inductive View : Type :=
| LoadingCard
| ErrorCard (message : string)
| MapView (panel : option PopulationPanel).

(** What the component returns. *)
Definition render (st : ViewerState) : View :=
  match mapData st with
  | None =>
      if loading st then LoadingCard
      else match error st with
           | Some message =>
               (* [error && !mapData]: an empty message is falsy *)
               if String.eqb message "" then MapView None
               else ErrorCard message
           | None => MapView None
           end
  | Some data => MapView (Some (populationPanel data))
  end.

End FireMapViewer.

(** ** The impact engine behind [generateFireMap]

    The map viewer ([FireMapViewer]) posts the request to
    [/api/generate-fire-map] and renders [total_population] and
    [affected_counties] as they arrive.  The engine that answers
    ([county_map_with_wind.py] and the endpoint around it) is not part of the
    sources at hand; it is modelled here from its specification. *)

Module Impact.
Local Open Scope Q_scope.

(** Modelled from the spec: [CountyContribution], one row of the result of the
    absent [population_map]. *)
Record CountyContribution : Type := mkContribution {
  county_id : string;
  contribution_state : string;
  county_name : string;
  contribution_population : Z;
  fraction : Q;
  contributing_population : Z
}.

(** Modelled from the spec: the ranking order of the absent aggregation step,
    "descending by [contributing_population], ties broken by [county_id]
    ascending". *)
Definition ranks_before (a b : CountyContribution) : bool :=
  (contributing_population b <? contributing_population a)%Z
  || ((contributing_population a =? contributing_population b)%Z
      && String.leb (county_id a) (county_id b)).

Module ContributionOrder <: TotalLeBool.
Definition t : Type := CountyContribution.
Definition leb : t -> t -> bool := ranks_before.
Lemma leb_total (a b : t) : leb a b = true \/ leb b a = true.
Proof.
  unfold leb, ranks_before.
  destruct (Z.ltb_spec (contributing_population b) (contributing_population a));
    [now left|].
  destruct (Z.ltb_spec (contributing_population a) (contributing_population b));
    [now right|].
  assert (E : contributing_population a = contributing_population b) by lia.
  rewrite E, Z.eqb_refl. simpl.
  apply String.leb_total.
Qed.
End ContributionOrder.

Module ContributionSort := Sort ContributionOrder.

(** [ranks_before] read as a proposition: strictly more contributing
    population, or as much and an identifier that is not greater. *)
Definition ranked (a b : CountyContribution) : Prop :=
  (contributing_population b < contributing_population a)%Z
  \/ (contributing_population a = contributing_population b
      /\ String.leb (county_id a) (county_id b) = true).

(** Modelled from the spec: the sort of Step 4 of the absent aggregator. *)
Definition sort_contributions (l : list CountyContribution)
  : list CountyContribution := ContributionSort.sort l.

(** Modelled from the spec: [total_population] of the absent aggregator,
    "sum(contributing_population over all included counties)". *)
Definition sum_contributing (l : list CountyContribution) : Z :=
  fold_right (fun c acc => (contributing_population c + acc)%Z) 0%Z l.

(** Modelled from the spec: [FireSpreadRequest], the input of the absent
    [compute_impact]. *)
Record FireSpreadRequest : Type := mkFireRequest {
  origin_latitude : Q;
  origin_longitude : Q;
  base_radius_km : Q;
  wind_speed : Q;
  wind_direction : Q
}.

(** Modelled from the spec: the error taxonomy of the absent service. *)
Inductive ImpactError : Type :=
| InvalidRequestError (field : string).

Inductive Outcome (A : Type) : Type :=
| Ok (value : A)
| Failed (error : ImpactError).
Arguments Ok {A} value.
Arguments Failed {A} error.

(** Modelled from the spec: the fixed rounding rule of Step 3 of the absent
    aggregator, round-half-up. *)
Definition round_half_up (x : Q) : Z := Qfloor (x + (1 # 2)).

(** Modelled from the spec: [clamp] as the absent ellipse builder and
    aggregator use it. *)
Definition clamp (x lo hi : Q) : Q := Qmax lo (Qmin x hi).

Section Engine.

(** The geometry library and the configuration the absent engine rests on:
    polygons, their area, the area of an intersection, the bounding-box test of
    the spatial index, the sampling of an ellipse into a polygon, the stretch
    ceiling, the zero threshold on fractions and the supported envelope. *)
Variable Geometry : Type.
Variable area : Geometry -> Q.
Variable intersection_area : Geometry -> Geometry -> Q.
Variable bbox_intersects : Geometry -> Geometry -> bool.
Variable ellipse_polygon :
  forall (center_latitude center_longitude major_axis_m minor_axis_m
          rotation_bearing_deg : Q), Geometry.
Variable shift_downwind :
  forall (latitude longitude bearing_deg distance_m : Q), Q * Q.
Variable W_max : Q.
Variable epsilon : Q.
Variable in_envelope : Q -> Q -> bool.

(** Modelled from the spec: [County], a row of the absent area dataset. *)
Record County : Type := mkCounty {
  id : string;
  state : string;
  name : string;
  boundary : Geometry;
  population : Z
}.

(** Modelled from the spec: [SpreadFootprint], the result of the absent
    ellipse builder ([create_wind_ellipse]). *)
Record SpreadFootprint : Type := mkFootprint {
  major_axis_m : Q;
  minor_axis_m : Q;
  rotation_bearing_deg : Q;
  origin_shift_m : Q;
  polygon : Geometry
}.

(** Modelled from the spec: [ImpactResult], the output of the absent
    [compute_impact]. *)
Record ImpactResult : Type := mkResult {
  total_population : Z;
  contributions : list CountyContribution;
  footprint : SpreadFootprint
}.

(** Modelled from the spec: the stretch factor of the absent ellipse builder,
    "1 + clamp(wind_speed, 0, W_max) / 100". *)
Definition stretch_factor (wind_speed : Q) : Q :=
  1 + clamp wind_speed 0 W_max / 100.

(** Modelled from the spec: the bearing of the absent ellipse builder,
    "(wind_direction + 180) mod 360". *)
Definition reciprocal_bearing (wind_direction : Q) : Q :=
  let x := wind_direction + 180 in
  x - 360 * inject_Z (Qfloor (x / 360)).

(** Modelled from the spec: the absent ellipse builder; it rejects a radius
    that is not positive and a negative wind speed. *)
Definition build_footprint (r : FireSpreadRequest) : Outcome SpreadFootprint :=
  if Qle_bool (base_radius_km r) 0 then
    Failed (InvalidRequestError "base_radius_km")
  else if negb (Qle_bool 0 (wind_speed r)) then
    Failed (InvalidRequestError "wind_speed")
  else
    let minor := base_radius_km r * 1000 in
    let major := minor * stretch_factor (wind_speed r) in
    let bearing := reciprocal_bearing (wind_direction r) in
    let shift := (major - minor) / 2 in
    let center :=
      shift_downwind (origin_latitude r) (origin_longitude r) bearing shift in
    Ok {| major_axis_m := major;
          minor_axis_m := minor;
          rotation_bearing_deg := bearing;
          origin_shift_m := shift;
          polygon :=
            ellipse_polygon (fst center) (snd center) major minor bearing |}.

(** Modelled from the spec: Step 1 of the absent aggregator, the candidates
    whose bounding boxes meet the footprint. *)
Definition candidates (dataset : list County) (fp : SpreadFootprint)
  : list County :=
  filter (fun c => bbox_intersects (polygon fp) (boundary c)) dataset.

(** Modelled from the spec: Steps 2 and 3 of the absent aggregator for one
    candidate; [None] when the county is skipped (zero area, or a fraction
    that is zero under [epsilon]). *)
Definition contribution_of (fp : SpreadFootprint) (c : County)
  : option CountyContribution :=
  let county_area := area (boundary c) in
  if Qeq_bool county_area 0 then None
  else
    let f :=
      clamp (intersection_area (polygon fp) (boundary c) / county_area) 0 1 in
    if Qle_bool f epsilon then None
    else Some {| county_id := id c;
                 contribution_state := state c;
                 county_name := name c;
                 contribution_population := population c;
                 fraction := f;
                 contributing_population :=
                   round_half_up (inject_Z (population c) * f) |}.

(** Modelled from the spec: the contributions of the included counties,
    before ranking. *)
Definition included (dataset : list County) (fp : SpreadFootprint)
  : list CountyContribution :=
  flat_map (fun c => match contribution_of fp c with
                     | Some row => [row]
                     | None => []
                     end)
           (candidates dataset fp).

(** Modelled from the spec: the absent impact aggregator, Steps 1 to 4. *)
Definition aggregate (dataset : list County) (fp : SpreadFootprint)
  : ImpactResult :=
  let rows := included dataset fp in
  {| total_population := sum_contributing rows;
     contributions := sort_contributions rows;
     footprint := fp |}.

(** Modelled from the spec: the validation of the absent impact service; the
    origin has to lie in the supported envelope. *)
Definition validate (r : FireSpreadRequest) : Outcome FireSpreadRequest :=
  if negb (in_envelope (origin_latitude r) (origin_longitude r)) then
    Failed (InvalidRequestError "origin")
  else if Qle_bool (base_radius_km r) 0 then
    Failed (InvalidRequestError "base_radius_km")
  else if negb (Qle_bool 0 (wind_speed r)) then
    Failed (InvalidRequestError "wind_speed")
  else Ok r.

(** Modelled from the spec: the absent [compute_impact]: validate, build the
    footprint, aggregate. *)
Definition compute_impact (dataset : list County) (r : FireSpreadRequest)
  : Outcome ImpactResult :=
  match validate r with
  | Failed e => Failed e
  | Ok r =>
      match build_footprint r with
      | Failed e => Failed e
      | Ok fp => Ok (aggregate dataset fp)
      end
  end.

(** The footprint meets no county of the dataset: for each county either the
    bounding boxes are apart or the intersection has no area. *)
Definition meets_no_county (dataset : list County) (fp : SpreadFootprint)
  : Prop :=
  forall c : County, In c dataset ->
    bbox_intersects (polygon fp) (boundary c) = false
    \/ (intersection_area (polygon fp) (boundary c) == 0)%Q.

End Engine.

(** *** A geometry of boxes

    Longitude and latitude boxes stand in for polygons in the examples: areas
    and intersections are those of rectangles in degrees. *)

Record Box : Type := mkBox {
  x_min : Q; x_max : Q; y_min : Q; y_max : Q
}.

Definition box_area (b : Box) : Q :=
  (Qmax 0 (x_max b - x_min b) * Qmax 0 (y_max b - y_min b))%Q.

Definition box_meet (a b : Box) : Box :=
  {| x_min := Qmax (x_min a) (x_min b); x_max := Qmin (x_max a) (x_max b);
     y_min := Qmax (y_min a) (y_min b); y_max := Qmin (y_max a) (y_max b) |}.

Definition box_intersection_area (a b : Box) : Q := box_area (box_meet a b).

Definition box_intersects (a b : Box) : bool :=
  Qle_bool (x_min a) (x_max b) && Qle_bool (x_min b) (x_max a)
  && Qle_bool (y_min a) (y_max b) && Qle_bool (y_min b) (y_max a).

(** The box around an ellipse, with both half axes taken along the major
    axis and 111320 metres to the degree. *)
Definition box_of_ellipse (center_latitude center_longitude major_axis_m
                           minor_axis_m rotation_bearing_deg : Q) : Box :=
  let half := (major_axis_m / 111320)%Q in
  {| x_min := center_longitude - half; x_max := center_longitude + half;
     y_min := center_latitude - half; y_max := center_latitude + half |}%Q.

Definition no_shift (latitude longitude bearing_deg distance_m : Q) : Q * Q :=
  (latitude, longitude).

(** The envelope of the map generator's inputs: latitude 20 to 50, longitude
    -125 to -65. *)
Definition usa_envelope (latitude longitude : Q) : bool :=
  Qle_bool 20 latitude && Qle_bool latitude 50
  && Qle_bool (-125) longitude && Qle_bool longitude (-65).

Definition fresno : County Box :=
  {| id := "06019"; state := "California"; name := "Fresno";
     boundary := {| x_min := -120.9; x_max := -118.4;
                    y_min := 35.9; y_max := 37.6 |}%Q;
     population := 1008654 |}.

(** A fire off the coast, over open water. *)
Definition offshore : FireSpreadRequest :=
  {| origin_latitude := 30; origin_longitude := -124; base_radius_km := 5;
     wind_speed := 0; wind_direction := 0 |}%Q.

(** Three counties around a fire in the Central Valley: two large ones that
    share its footprint evenly, listed east first, and a small one at its
    core. *)
Definition valley : list (County Box) :=
  [ {| id := "06107"; state := "California"; name := "East";
       boundary := {| x_min := -119; x_max := -118;
                      y_min := 35; y_max := 37 |}%Q;
       population := 1000000 |};
    {| id := "06019"; state := "California"; name := "West";
       boundary := {| x_min := -120; x_max := -119;
                      y_min := 35; y_max := 37 |}%Q;
       population := 1000000 |};
    {| id := "06999"; state := "California"; name := "Core";
       boundary := {| x_min := -119.05; x_max := -118.95;
                      y_min := 35.95; y_max := 36.05 |}%Q;
       population := 500000 |} ].

Definition valleyFire : FireSpreadRequest :=
  {| origin_latitude := 36; origin_longitude := -119; base_radius_km := 5;
     wind_speed := 0; wind_direction := 0 |}%Q.

(** Scenario B of the specification: wind 30 from bearing 245. *)
Definition scenarioB : FireSpreadRequest :=
  {| origin_latitude := 36.7783; origin_longitude := -119.4179;
     base_radius_km := 5; wind_speed := 30; wind_direction := 245 |}%Q.

End Impact.

(** ** The prediction page ([Index]) and the history panel ([HistoryPanel]) *)

Module Index.

    (* [None]: the body is not JSON, and [response.json()] rejects *)

(** How the awaited [predictFireSize(data)] ends. *)
Inductive Awaited : Type :=
| Resolved (result : Api.PredictionResponse)
| Rejected.


(** The state of the page. *)
Record IndexState : Type := mkIndex {
  isLoading : bool;
  prediction : option Api.PredictionResponse;
  lastInputs : option Api.PredictionRequest;
  history : list Storage.HistoricalPrediction;
  isHistoryOpen : bool
}.


Inductive Toast : Type :=
| ToastSuccess (title description : string)
| ToastError (title description : string).

(** The entry [handleSubmit] builds; [newId] is what [generateId()] returns
    and [now] what [new Date().toISOString()] returns. *)
Definition historyEntry (newId now : string) (data : Api.PredictionRequest)
    (result : Api.PredictionResponse) : Storage.HistoricalPrediction :=
  {| Storage.id := newId;
     Storage.timestamp := now;
     Storage.location := {| Storage.lat := Api.req_latitude data;
                            Storage.lon := Api.req_longitude data;
                            Storage.loc_state := Api.state data |};
     Storage.inputs := data;
     Storage.prediction := result |}.

Section Page.

Variable Text : Type.
Variable truthy : Text -> bool.
Variable JSON_stringify : list Storage.HistoricalPrediction -> Text.
Variable JSON_parse : Text -> option (list Storage.HistoricalPrediction).

#[local] Abbreviation LocalStorage := (Storage.LocalStorage Text).
#[local] Abbreviation getHistory := (Storage.getHistory Text truthy JSON_parse).
#[local] Abbreviation savePrediction :=
  (Storage.savePrediction Text truthy JSON_stringify JSON_parse).
#[local] Abbreviation deletePrediction :=
  (Storage.deletePrediction Text truthy JSON_stringify JSON_parse).
#[local] Abbreviation clearHistory := (Storage.clearHistory Text).

(** The first effect of the page: [setHistory(getHistory())]. *)
Definition mount (ls : LocalStorage) : IndexState :=
  {| isLoading := false; prediction := None; lastInputs := None;
     history := getHistory ls; isHistoryOpen := false |}.

(** [handleSubmit], from its first line to the end of [finally]. *)
Definition handleSubmit (data : Api.PredictionRequest) (awaited : Awaited)
    (newId now : string) (st : IndexState) (ls : LocalStorage)
  : IndexState * LocalStorage * Toast :=
  match awaited with
  | Resolved result =>
      let ls' := savePrediction (historyEntry newId now data result) ls in
      ({| isLoading := false;
          prediction := Some result;
          lastInputs := Some data;
          history := getHistory ls';
          isHistoryOpen := isHistoryOpen st |},
       ls',
       ToastSuccess "Prediction generated successfully!"
         (String.append "Risk Level: " (Api.risk_category result)))
  | Rejected =>
      ({| isLoading := false;
          prediction := prediction st;
          lastInputs := Some data;
          history := history st;
          isHistoryOpen := isHistoryOpen st |},
       ls,
       ToastError "Failed to generate prediction"
         "Please check your inputs and try again.")
  end.

Definition handleSelectFromHistory (item : Storage.HistoricalPrediction)
    (st : IndexState) : IndexState :=
  {| isLoading := isLoading st;
     prediction := Some (Storage.prediction item);
     lastInputs := Some (Storage.inputs item);
     history := history st;
     isHistoryOpen := false |}.

(** [onRefresh]: [setHistory(getHistory())]. *)
Definition onRefresh (st : IndexState) (ls : LocalStorage) : IndexState :=
  {| isLoading := isLoading st; prediction := prediction st;
     lastInputs := lastInputs st; history := getHistory ls;
     isHistoryOpen := isHistoryOpen st |}.

(** [handleDelete] and [handleClearAll] of the history panel. *)
Definition handleDelete (id' : string) (st : IndexState) (ls : LocalStorage)
  : IndexState * LocalStorage :=
  let ls' := deletePrediction id' ls in (onRefresh st ls', ls').

Definition handleClearAll (st : IndexState) (ls : LocalStorage)
  : IndexState * LocalStorage :=
  let ls' := clearHistory ls in (onRefresh st ls', ls').

(** What the user does on the page. *)
Inductive Event : Type :=
| Submit (data : Api.PredictionRequest) (awaited : Awaited)
         (newId now : string)
| Select (item : Storage.HistoricalPrediction)
| OpenHistory
| DeleteEntry (id' : string)
| ClearAll.

Definition step (e : Event) (page : IndexState * LocalStorage)
  : IndexState * LocalStorage :=
  let (st, ls) := page in
  match e with
  | Submit data awaited newId now =>
      fst (handleSubmit data awaited newId now st ls)
  | Select item => (handleSelectFromHistory item st, ls)
  | OpenHistory =>
      ({| isLoading := isLoading st; prediction := prediction st;
          lastInputs := lastInputs st; history := history st;
          isHistoryOpen := true |}, ls)
  | DeleteEntry id' => handleDelete id' st ls
  | ClearAll => handleClearAll st ls
  end.

Definition run (events : list Event) (page : IndexState * LocalStorage)
  : IndexState * LocalStorage :=
  fold_left (fun page e => step e page) events page.

End Page.

End Index.

(** ** The spread animation of [RealFireMap.tsx] *)

Module FireAnimation.

(** One call of [animate]: the progress it sets, and whether it asks for
    another frame. *)
Definition animate (progress : Z) : Z * bool :=
  let progress := (progress + 2)%Z in
  let progress := if (100 <? progress)%Z then 100%Z else progress in
  (progress, (progress <? 100)%Z).

(** The values handed to [setAnimationProgress], frame after frame, until no
    further frame is asked for; [None] when [frames] frames do not suffice. *)
Fixpoint animation (frames : nat) (progress : Z) : option (list Z) :=
  match frames with
  | O => None
  | S frames' =>
      let (progress', again) := animate progress in
      if again then
        match animation frames' progress' with
        | Some rest => Some (progress' :: rest)
        | None => None
        end
      else Some [progress']
  end.

(** The effect [Animate fire spread]: nothing before the map is loaded, else
    the animation from [progress = 0]. *)
Definition animateFireSpread (mapLoaded : bool) (frames : nat)
  : option (list Z) :=
  if mapLoaded then animation frames 0 else Some [].

(** The state of the map for a progress value. *)
Definition atProgress (progress : Z) : RealFireMap.MapState :=
  {| RealFireMap.mapCurrent := true; RealFireMap.mapLoaded := true;
     RealFireMap.animationProgress := IZR progress |}.

End FireAnimation.

(** ** [acresToKm] of [lib/api.ts] and the viewer properties of
       [PredictionResults.tsx] *)

Module PredictionResults.
Local Open Scope R_scope.

(** [acresToKm]: radius in kilometres of the disc of the given area, for an
    area that is not negative. *)
Definition acresToKm (acres : R) : R :=
  let areaKm2 := acres * 0.00404686 in
  sqrt (areaKm2 / PI).

(** A number that may be NaN: [None] is NaN. *)
Definition NumberOrNaN : Type := option R.

(** [Math.sqrt]: NaN for a negative argument. *)
Definition Math_sqrt (x : R) : NumberOrNaN :=
  if Rlt_dec x 0 then None else Some (sqrt x).

(** [Math.max(a, b)] for a number [a]: NaN when [b] is NaN. *)
Definition Math_max (a : R) (b : NumberOrNaN) : NumberOrNaN :=
  match b with
  | Some y => Some (Rmax a y)
  | None => None
  end.

(** [acresToKm] for any area, with the NaN of its [Math.sqrt]. *)
Definition acresToKmOrNaN (acres : R) : NumberOrNaN :=
  let areaKm2 := acres * 0.00404686 in
  Math_sqrt (areaKm2 / PI).

(** [x || fallback] on an optional number: the fallback replaces a missing
    value and zero. *)
Definition orElse (x : option Q) (fallback : Q) : Q :=
  match x with
  | Some v => if Qeq_bool v 0 then fallback else v
  | None => fallback
  end.

(** The properties handed to [FireMapViewer]. *)
Record FireMapViewerProps : Type := mkViewerProps {
  latitude : Q;
  longitude : Q;
  radiusKm : NumberOrNaN;
  windSpeed : Q;
  windDirection : Q;
  riskCategory : string
}.

Definition viewerProps (prediction : Api.PredictionResponse)
    (inputs : Api.PredictionRequest) : FireMapViewerProps :=
  (* Convert predicted acres to radius in km for the fire map *)
  let radiusKm :=
    Math_max 1 (acresToKmOrNaN (Q2R (Api.predicted_acres prediction))) in
  {| latitude := Api.req_latitude inputs;
     longitude := Api.req_longitude inputs;
     radiusKm := radiusKm;
     windSpeed := orElse (Api.wind_speed inputs) 10;
     windDirection := orElse (Api.wind_direction inputs) 0;
     riskCategory := Api.risk_category prediction |}.

End PredictionResults.

(** ** The circle map of [PopulationFireMap.tsx] *)

Module PopulationFireMap.
Local Open Scope R_scope.

(** A Leaflet position [[lat, lng]]. *)
Definition LatLng : Type := (R * R)%type.

Record PopulationFireMapProps : Type := mkProps {
  latitude : R;
  longitude : R;
  predictedAcres : R;
  windSpeed : R;
  windDirection : R
}.

Definition radiusMeters (p : PopulationFireMapProps) : R :=
  RealFireMap.acresToRadius (predictedAcres p).

Definition radiusKm (p : PopulationFireMapProps) : R := radiusMeters p / 1000.

(** [estimatePopulation]: the area of the disc at 100 people per square
    kilometre, rounded. *)
Definition estimatePopulation (radiusKm : R) : Z :=
  let avgDensity := 100 in
  let area := PI * radiusKm * radiusKm in
  JsReal.round (area * avgDensity).

(** The part of the component state the effect reads: whether [map.current]
    is set and the [mapLoaded] flag. *)
Record MapState : Type := mkState {
  mapCurrent : bool;
  mapLoaded : bool
}.

(** What the effect [Update fire visualization] draws. *)
Record FireVisualization : Type := mkVisualization {
  fireCircle : LatLng * R;          (* centre and radius in metres *)
  warningZone : LatLng * R;
  windLine : option (LatLng * LatLng);
  fireMarker : LatLng
}.

(** The effect [Update fire visualization]: [None] when it returns at its
    first line, without drawing. *)
Definition updateFireVisualization (p : PopulationFireMapProps) (s : MapState)
  : option FireVisualization :=
  if negb (mapCurrent s) || negb (mapLoaded s) then None
  else
    Some
      {| fireCircle := ((latitude p, longitude p), radiusMeters p);
         warningZone := ((latitude p, longitude p), radiusMeters p * 1.5);
         windLine :=
           if Rlt_dec 0 (windSpeed p) then
             let windEndLat :=
               latitude p
               + (radiusKm p / 111) * cos ((windDirection p * PI) / 180) in
             let windEndLng :=
               longitude p
               + (radiusKm p / (111 * cos ((latitude p * PI) / 180)))
                 * sin ((windDirection p * PI) / 180) in
             Some ((latitude p, longitude p), (windEndLat, windEndLng))
           else None;
         fireMarker := (latitude p, longitude p) |}.

(** The state once the map is there and loaded. *)
Definition mapReady : MapState := {| mapCurrent := true; mapLoaded := true |}.

(** A fire of 100 acres on the equator, wind 30 at direction 0. *)
Definition equatorFire : PopulationFireMapProps :=
  {| latitude := 0; longitude := -119.4179; predictedAcres := 100;
     windSpeed := 30; windDirection := 0 |}.

(** The same numbers handed to [RealFireMap]. *)
Definition asRealFireMapProps (p : PopulationFireMapProps)
  : RealFireMap.RealFireMapProps :=
  {| RealFireMap.latitude := latitude p;
     RealFireMap.longitude := longitude p;
     RealFireMap.predictedAcres := predictedAcres p;
     RealFireMap.windSpeed := windSpeed p;
     RealFireMap.windDirection := windDirection p |}.

End PopulationFireMap.

(** ** Further helpers of [lib/api.ts] and tables of [types/prediction] *)

Module ApiHelpers.
Local Open Scope Q_scope.
Local Open Scope string_scope.

(** [getRiskCategoryColor]. *)
Definition getRiskCategoryColor (category : string) : string :=
  if String.eqb category "Very Low" then "hsl(145, 63%, 49%)"
  else if String.eqb category "Low" then "hsl(204, 70%, 53%)"
  else if String.eqb category "Moderate" then "hsl(37, 90%, 51%)"
  else if String.eqb category "High" then "hsl(28, 80%, 52%)"
  else if String.eqb category "Critical" then "hsl(6, 78%, 57%)"
  else "hsl(210, 15%, 45%)".

(** [getSeasonFromMonth]. *)
Definition getSeasonFromMonth (month : Q) : string :=
  if Qle_bool 3 month && Qle_bool month 5 then "Spring"
  else if Qle_bool 6 month && Qle_bool month 8 then "Summer"
  else if Qle_bool 9 month && Qle_bool month 11 then "Fall"
  else "Winter".

Record Season : Type := mkSeason {
  value : string;
  label : string;
  months : list Q
}.

(** [SEASONS]. *)
Definition SEASONS : list Season :=
  [ {| value := "Spring"; label := "Spring"; months := [3; 4; 5] |};
    {| value := "Summer"; label := "Summer"; months := [6; 7; 8] |};
    {| value := "Fall"; label := "Fall"; months := [9; 10; 11] |};
    {| value := "Winter"; label := "Winter"; months := [12; 1; 2] |} ].

End ApiHelpers.

(** ** The gauge of [RiskGauge.tsx] *)

Module RiskGauge.
Local Open Scope Q_scope.
Local Open Scope string_scope.

Record GaugeColor : Type := mkColor {
  stroke : string;
  glow : string
}.

(** [getColor], for the [score] property of the gauge. *)
Definition getColor (score : Q) : GaugeColor :=
  if Api.ltb score 20 then
    {| stroke := "hsl(145, 63%, 49%)"; glow := "rgba(46, 204, 113, 0.5)" |}
  else if Api.ltb score 40 then
    {| stroke := "hsl(204, 70%, 53%)"; glow := "rgba(52, 152, 219, 0.5)" |}
  else if Api.ltb score 60 then
    {| stroke := "hsl(37, 90%, 51%)"; glow := "rgba(243, 156, 18, 0.5)" |}
  else if Api.ltb score 80 then
    {| stroke := "hsl(28, 80%, 52%)"; glow := "rgba(230, 126, 34, 0.5)" |}
  else
    {| stroke := "hsl(6, 78%, 57%)"; glow := "rgba(231, 76, 60, 0.5)" |}.

(** [isCritical = score >= 80]. *)
Definition isCritical (score : Q) : bool := Qle_bool 80 score.

(** The score animation runs on the doubles of the source. *)
Import Floats.

(** The double that holds a whole number (exact up to 2^53). *)
Definition of_Z (z : Z) : float :=
  SF2Prim (binary_normalize prec emax z 0 false).

(** [Math.round]: the nearest whole number, halves going up; NaN, the
    infinities, the zeros and the numbers that are whole already are returned
    as they are, and a result of zero keeps the sign of the argument. *)
Definition Math_round (x : float) : float :=
  match Prim2SF x with
  | S754_finite s m e =>
      if (0 <=? e)%Z then x
      else
        let num := if s then Z.neg m else Z.pos m in
        (* the floor of [num * 2^e + 1/2] *)
        let z := Z.shiftr (2 * num + 2 ^ (- e)) (1 - e) in
        if (z =? 0)%Z then (if s then (-0)%float else 0%float) else of_Z z
  | _ => x
  end.

(** One tick of the interval timer of the score animation: the value
    displayed, the new [current], and whether the timer is cleared. *)
Definition tick (score current : float) : float * float * bool :=
  let steps := 60%float in
  let increment := (score / steps)%float in
  let current := (current + increment)%float in
  if (score <=? current)%float then (score, current, true)
  else (Math_round current, current, false).

(** The values displayed tick after tick until the timer is cleared; [None]
    when [ticks] ticks do not suffice. *)
Fixpoint animation (ticks : nat) (score current : float)
  : option (list float) :=
  match ticks with
  | O => None
  | S ticks' =>
      let '(shown, current', cleared) := tick score current in
      if cleared then Some [shown]
      else match animation ticks' score current' with
           | Some rest => Some (shown :: rest)
           | None => None
           end
  end.

(** The effect of the gauge: without [animate] it displays the score at
    once; with it the timer starts from [current = 0]. *)
Definition animateScore (animate : bool) (ticks : nat) (score : float)
  : option (list float) :=
  if negb animate then Some [score] else animation ticks score 0%float.

End RiskGauge.

(** ** The response plan of [RecommendationsPanel.tsx] *)

Module RecommendationsPanel.
Local Open Scope string_scope.

(** [isCritical]: the panel is highlighted for these two categories. *)
Definition isCritical (prediction : Api.PredictionResponse) : bool :=
  String.eqb (Api.risk_category prediction) "Critical Risk"
  || String.eqb (Api.risk_category prediction) "High Risk".

(** [checkedActions], a [Set<number>]: its members in insertion order. *)
Definition CheckedActions : Type := list nat.

Definition has (s : CheckedActions) (index : nat) : bool :=
  existsb (Nat.eqb index) s.

(** [toggleAction]: a copy of the set with the index deleted when it is
    there and added when it is not. *)
Definition toggleAction (index : nat) (checkedActions : CheckedActions)
  : CheckedActions :=
  if has checkedActions index
  then filter (fun i => negb (Nat.eqb index i)) checkedActions
  else (checkedActions ++ [index])%list.

(** [checkedActions.size]. *)
Definition size (s : CheckedActions) : nat := List.length s.

(** The toggles of a list of clicks, from the initial empty set. *)
Definition afterClicks (clicks : list nat) : CheckedActions :=
  fold_left (fun s index => toggleAction index s) clicks [].

End RecommendationsPanel.

(** ** A series of map requests of [FireMapViewer.tsx] *)

Module FireMapRefresh.
Import FireMapViewer.

(** The state of a viewer that has just been mounted. *)
Definition mounted : ViewerState :=
  {| mapData := None; loading := false; error := None |}.

(** [fetchMap] run for each outcome in turn: the first request and the
    refreshes after it. *)
Definition refreshes (outcomes : list FireMapOutcome) (st : ViewerState)
  : ViewerState :=
  fold_left (fun st outcome => fetchMap outcome st) outcomes st.

Definition failed (outcome : FireMapOutcome) : bool :=
  match outcome with
  | MapFailed _ => true
  | MapOk _ => false
  end.

End FireMapRefresh.

(** * Properties *)

(** ** Integer parts of real numbers *)

Module JsRealFacts.
Import JsReal.
Local Open Scope R_scope.

Lemma floor_unique (x : R) (z : Z) : IZR z <= x < IZR z + 1 -> floor x = z.
Proof.
  intros [Hlo Hhi]. unfold floor, Int_part.
  assert (Hup : up x = (z + 1)%Z).
  { symmetry. apply tech_up; rewrite plus_IZR; simpl; lra. }
  rewrite Hup. lia.
Qed.

Lemma trunc_nonneg_unique (x : R) (z : Z) :
  0 <= x -> IZR z <= x < IZR z + 1 -> trunc x = z.
Proof.
  intros H0 Hz. unfold trunc. destruct (Rle_dec 0 x) as [_|C]; [|lra].
  now apply floor_unique.
Qed.

Lemma round_unique (x : R) (z : Z) :
  IZR z - / 2 <= x < IZR z + / 2 -> round x = z.
Proof. intros H. unfold round. apply floor_unique. lra. Qed.

(** [(245 + 180) % 360] is [65]. *)
Lemma rem_425_360 : rem (245 + 180) 360 = 65.
Proof.
  unfold rem. rewrite (trunc_nonneg_unique _ 1%Z); lra.
Qed.

End JsRealFacts.

(** ** The spread ellipse *)

Module RealFireMapFacts.
Import RealFireMap.
Local Open Scope R_scope.

(** *** The numbers *)

Lemma acresToRadius_nonneg (acres : R) : 0 <= acresToRadius acres.
Proof.
  unfold acresToRadius. pose proof (sqrt_pos (acres * 43560 / PI)). lra.
Qed.

Lemma acresToRadius_pos (acres : R) : 0 < acres -> 0 < acresToRadius acres.
Proof.
  intros H. unfold acresToRadius.
  assert (0 < sqrt (acres * 43560 / PI)); [|lra].
  apply sqrt_lt_R0. apply Rdiv_lt_0_compat; [lra | apply PI_RGT_0].
Qed.

Lemma getElongationFactor_cases (w : R) :
  (w <= 5 -> getElongationFactor w = 1.2) /\
  (5 < w <= 15 -> getElongationFactor w = 1.8) /\
  (15 < w <= 25 -> getElongationFactor w = 2.5) /\
  (25 < w -> getElongationFactor w = 3.5).
Proof.
  unfold getElongationFactor.
  destruct (Rle_dec w 5), (Rle_dec w 15), (Rle_dec w 25);
    repeat split; intros; lra.
Qed.

Lemma getElongationFactor_mono (w1 w2 : R) :
  w1 <= w2 -> getElongationFactor w1 <= getElongationFactor w2.
Proof.
  intros H. unfold getElongationFactor.
  destruct (Rle_dec w1 5), (Rle_dec w1 15), (Rle_dec w1 25),
           (Rle_dec w2 5), (Rle_dec w2 15), (Rle_dec w2 25); lra.
Qed.

Lemma getElongationFactor_ge_1 (w : R) : 1 < getElongationFactor w.
Proof.
  unfold getElongationFactor.
  destruct (Rle_dec w 5), (Rle_dec w 15), (Rle_dec w 25); lra.
Qed.

(** *** The sampling loop *)

Lemma ellipseLoop_map (point : nat -> LngLat) (n i : nat) (acc : list LngLat) :
  ellipseLoop point n i acc = acc ++ map point (seq i n).
Proof.
  revert i acc. induction n as [|n IH]; intros i acc; simpl.
  - now rewrite app_nil_r.
  - rewrite IH, <- app_assoc. reflexivity.
Qed.

Lemma createEllipseCoordinates_length (lng lat a b rot : R) (n : nat) :
  List.length (createEllipseCoordinates lng lat a b rot n) = S n.
Proof.
  unfold createEllipseCoordinates. rewrite ellipseLoop_map. simpl.
  now rewrite length_map, length_seq.
Qed.

Lemma createEllipseCoordinates_nth (lng lat a b rot : R) (n i : nat) :
  (i <= n)%nat ->
  nth_error (createEllipseCoordinates lng lat a b rot n) i
  = Some (ellipsePoint lng lat a b (rot * PI / 180) n i).
Proof.
  intros Hi. unfold createEllipseCoordinates. rewrite ellipseLoop_map.
  rewrite app_nil_l, nth_error_map, nth_error_seq.
  destruct (Nat.ltb_spec i (S n)); [reflexivity | lia].
Qed.

(** The sample half a turn further is the mirror image through the centre. *)
Lemma ellipsePoint_opposite (lng lat a b rotRad : R) (k i : nat) :
  (0 < k)%nat ->
  let P := ellipsePoint lng lat a b rotRad (2 * k) i in
  let Q := ellipsePoint lng lat a b rotRad (2 * k) (i + k) in
  fst P + fst Q = 2 * lng /\ snd P + snd Q = 2 * lat.
Proof.
  intros Hk. unfold ellipsePoint. cbv zeta.
  assert (Hne : INR k <> 0) by (apply not_0_INR; lia).
  replace (INR (i + k) / INR (2 * k) * 2 * PI)
    with (INR i / INR (2 * k) * 2 * PI + PI)
    by (rewrite plus_INR, mult_INR; simpl INR; field; exact Hne).
  rewrite neg_cos, neg_sin. simpl fst. simpl snd.
  unfold Rdiv. split; ring.
Qed.

(** *** One run of [updateFireLayers] *)

Lemma updateFireLayers_ready (p : RealFireMapProps) (s : MapState) :
  updateFireLayers p s <> None <-> mapCurrent s = true /\ mapLoaded s = true.
Proof.
  unfold updateFireLayers.
  destruct (mapCurrent s), (mapLoaded s); simpl; split;
    try congruence; intuition congruence.
Qed.

Lemma updateFireLayers_Some (p : RealFireMapProps) (s : MapState)
      (L : FireLayers) :
  updateFireLayers p s = Some L ->
  currentRadius L = acresToRadius (predictedAcres p) * (animationProgress s / 100)
  /\ majorAxis L = currentRadius L * getElongationFactor (windSpeed p)
  /\ minorAxis L = currentRadius L
  /\ rotationAngle L = windDirection p
  /\ ellipseCenter L = (longitude p, latitude p)
  /\ originMarker L = (longitude p, latitude p)
  /\ ellipseCoords L
     = createEllipseCoordinates (longitude p) (latitude p) (majorAxis L)
         (minorAxis L) (rotationAngle L) defaultNumPoints
  /\ outerGlowCoords L
     = createEllipseCoordinates (longitude p) (latitude p) (majorAxis L * 1.3)
         (minorAxis L * 1.3) (rotationAngle L) defaultNumPoints.
Proof.
  unfold updateFireLayers.
  destruct (negb (mapCurrent s) || negb (mapLoaded s)); [discriminate|].
  intros [= <-]. simpl. repeat split; reflexivity.
Qed.

Lemma scenario_radius_pos (p : RealFireMapProps) (L : FireLayers) :
  0 < predictedAcres p ->
  updateFireLayers p animationDone = Some L -> 0 < currentRadius L.
Proof.
  intros Ha HL. apply updateFireLayers_Some in HL as (Hr & _).
  rewrite Hr. simpl. pose proof (acresToRadius_pos _ Ha). lra.
Qed.

Lemma getWindLabel_65 : getWindLabel 65 = Some "NE"%string.
Proof.
  unfold getWindLabel.
  rewrite (JsRealFacts.round_unique (65 / 45) 1%Z) by (simpl; lra).
  reflexivity.
Qed.

Lemma centerDisplacement_zero (p : RealFireMapProps) (s : MapState)
      (L : FireLayers) :
  updateFireLayers p s = Some L -> centerDisplacement L = 0.
Proof.
  intros HL. apply updateFireLayers_Some in HL as (_ & _ & _ & _ & Hc & Ho & _).
  unfold centerDisplacement. rewrite Hc, Ho. simpl.
  replace ((latitude p - latitude p) * 111320) with 0 by ring.
  replace ((longitude p - longitude p) * _) with 0 by ring.
  replace (0 * 0 + 0 * 0) with 0 by ring. apply sqrt_0.
Qed.

Lemma specClamp_zero (hi : R) : specClamp 0 0 hi = 0.
Proof.
  unfold specClamp, Rmax, Rmin.
  destruct (Rle_dec 0 hi); destruct (Rle_dec 0 _); lra.
Qed.

(** *** Direction of the ellipse (C1) *)

(** C1, as written, fails on the component.  In scenario B (wind direction
    245) the rotation handed to the ellipse is 245, while
    [(245 + 180) mod 360] is 65: the rotation is not the reciprocal bearing. *)
Lemma rotation_is_not_reciprocal_at_245 :
  exists L, updateFireLayers scenarioB animationDone = Some L
    /\ rotationAngle L = 245
    /\ JsReal.rem (windDirection scenarioB + 180) 360 = 65
    /\ rotationAngle L <> JsReal.rem (windDirection scenarioB + 180) 360.
Proof.
  destruct (updateFireLayers scenarioB animationDone) as [L|] eqn:E;
    [|discriminate E].
  exists L. pose proof (updateFireLayers_Some _ _ _ E) as (_ & _ & _ & Hr & _).
  simpl in Hr. rewrite Hr. simpl windDirection.
  rewrite JsRealFacts.rem_425_360. repeat split; try reflexivity. lra.
Qed.

(** The first sampled vertex, an end of the major axis, lies at the rotation
    angle counted from the east axis towards north. *)
Lemma major_axis_vertex (p : RealFireMapProps) (s : MapState) (L : FireLayers) :
  updateFireLayers p s = Some L ->
  nth_error (ellipseCoords L) 0
  = Some (longitude p
            + majorAxis L * cos (rotationAngle L * PI / 180)
              / (111320 * cos (latitude p * PI / 180)),
          latitude p
            + majorAxis L * sin (rotationAngle L * PI / 180) / 111320).
Proof.
  intros HL.
  pose proof (updateFireLayers_Some _ _ _ HL)
    as (_ & _ & _ & _ & _ & _ & Hcoords & _).
  rewrite Hcoords, createEllipseCoordinates_nth by lia.
  unfold ellipsePoint. f_equal.
  replace (INR 0 / INR defaultNumPoints * 2 * PI) with 0
    by (simpl INR at 1; unfold Rdiv; ring).
  rewrite cos_0, sin_0. f_equal; unfold Rdiv; ring.
Qed.

(** C1, amended.  For every run of the fire layers the rotation handed to the
    ellipse, for the main polygon and for the glow, is the wind direction
    itself, which the component reads as the direction the fire spreads to.
    The reciprocal [(windDirection + 180) mod 360] only feeds the "from" label
    of the legend, shown when there is wind; for wind direction 245 the
    rotation is 245 and the legend names the wind as coming from NE. *)
Theorem rotation_angle_is_wind_direction
    (p : RealFireMapProps) (s : MapState) (L : FireLayers) :
  updateFireLayers p s = Some L ->
  rotationAngle L = windDirection p
  /\ ellipseCoords L
     = createEllipseCoordinates (longitude p) (latitude p) (majorAxis L)
         (minorAxis L) (windDirection p) defaultNumPoints
  /\ outerGlowCoords L
     = createEllipseCoordinates (longitude p) (latitude p) (majorAxis L * 1.3)
         (minorAxis L * 1.3) (windDirection p) defaultNumPoints
  /\ (0 < windSpeed p ->
      windLegend p
      = Some (windSpeed p,
              getWindLabel (JsReal.rem (windDirection p + 180) 360)))
  /\ (windDirection p = 245 ->
      rotationAngle L = 245
      /\ getWindLabel (JsReal.rem (windDirection p + 180) 360)
         = Some "NE"%string).
Proof.
  intros HL.
  pose proof (updateFireLayers_Some _ _ _ HL)
    as (_ & _ & _ & Hrot & _ & _ & Hcoords & Hglow).
  rewrite Hrot in Hcoords, Hglow.
  split; [exact Hrot|]. split; [exact Hcoords|]. split; [exact Hglow|]. split.
  - intros Hw. unfold windLegend.
    destruct (Rlt_dec 0 (windSpeed p)); [reflexivity | contradiction].
  - intros H245. rewrite Hrot, H245. split; [reflexivity|].
    rewrite JsRealFacts.rem_425_360. apply getWindLabel_65.
Qed.

Lemma rotation_angle_is_wind_direction_witness :
  exists L, updateFireLayers scenarioB animationDone = Some L
    /\ rotationAngle L = windDirection scenarioB.
Proof.
  eexists. split; [reflexivity|].
  exact (proj1 (rotation_angle_is_wind_direction scenarioB animationDone _
                  eq_refl)).
Defined.

(** *** Stretch and axes (C2) *)

(** C2, as written, fails on the component.  With no wind the major axis is
    1.2 times the minor axis, whereas [1 + clamp(0, 0, W_max) / 100] is 1 for
    every ceiling [W_max]: no ceiling makes the formula fit. *)
Lemma stretch_formula_fails_without_wind :
  exists L,
    updateFireLayers (withWindSpeed scenarioB 0) animationDone = Some L
    /\ forall W_max : R,
         majorAxis L
         <> minorAxis L * (1 + specClamp (windSpeed (withWindSpeed scenarioB 0))
                                         0 W_max / 100).
Proof.
  destruct (updateFireLayers (withWindSpeed scenarioB 0) animationDone)
    as [L|] eqn:E; [|discriminate E].
  exists L. split; [reflexivity|]. intros W_max.
  assert (Hpos : 0 < currentRadius L)
    by (apply (scenario_radius_pos (withWindSpeed scenarioB 0));
        [simpl; lra | exact E]).
  apply updateFireLayers_Some in E as (_ & Hmaj & Hmin & _).
  rewrite Hmaj, Hmin. simpl windSpeed. rewrite specClamp_zero.
  destruct (getElongationFactor_cases 0) as (H0 & _).
  rewrite H0 by lra. nra.
Qed.

(** C2, amended.  For every run of the fire layers the stretch factor is the
    step value of the wind band (1.2 up to 5, 1.8 up to 15, 2.5 up to 25, 3.5
    above), the minor axis is the radius of the predicted area in metres
    scaled by the animation progress, and the major axis is the minor axis
    times the stretch factor. *)
Theorem axes_follow_wind_band
    (p : RealFireMapProps) (s : MapState) (L : FireLayers) :
  updateFireLayers p s = Some L ->
  minorAxis L
  = acresToRadius (predictedAcres p) * (animationProgress s / 100)
  /\ majorAxis L = minorAxis L * getElongationFactor (windSpeed p)
  /\ (windSpeed p <= 5 -> getElongationFactor (windSpeed p) = 1.2)
  /\ (5 < windSpeed p <= 15 -> getElongationFactor (windSpeed p) = 1.8)
  /\ (15 < windSpeed p <= 25 -> getElongationFactor (windSpeed p) = 2.5)
  /\ (25 < windSpeed p -> getElongationFactor (windSpeed p) = 3.5).
Proof.
  intros HL. apply updateFireLayers_Some in HL as (Hr & Hmaj & Hmin & _).
  split; [now rewrite Hmin|]. split; [now rewrite Hmaj, Hmin|].
  apply getElongationFactor_cases.
Qed.

Lemma axes_follow_wind_band_witness :
  exists L, updateFireLayers scenarioB animationDone = Some L
    /\ majorAxis L = minorAxis L * getElongationFactor 30.
Proof.
  eexists. split; [reflexivity|].
  exact (proj1 (proj2 (axes_follow_wind_band scenarioB animationDone _
                         eq_refl))).
Defined.

(** *** No wind (C3) *)

(** C3, as written, fails on the component.  With wind speed 0 the axes of
    the footprint differ: the major axis is 1.2 times the minor axis. *)
Lemma no_wind_footprint_is_not_a_circle :
  exists L,
    updateFireLayers (withWindSpeed scenarioB 0) animationDone = Some L
    /\ windSpeed (withWindSpeed scenarioB 0) = 0
    /\ majorAxis L <> minorAxis L.
Proof.
  destruct (updateFireLayers (withWindSpeed scenarioB 0) animationDone)
    as [L|] eqn:E; [|discriminate E].
  exists L. split; [reflexivity|]. split; [reflexivity|].
  assert (Hpos : 0 < currentRadius L)
    by (apply (scenario_radius_pos (withWindSpeed scenarioB 0));
        [simpl; lra | exact E]).
  apply updateFireLayers_Some in E as (_ & Hmaj & Hmin & _).
  rewrite Hmaj, Hmin. simpl windSpeed.
  destruct (getElongationFactor_cases 0) as (H0 & _).
  rewrite H0 by lra. nra.
Qed.

(** C3, amended.  With wind speed 0 and any wind direction the stretch factor
    is 1.2, the lowest band: the major axis is 1.2 times the minor axis, the
    two are equal only for a footprint of radius 0, and the ellipse is centred
    on the origin (shift 0). *)
Theorem no_wind_footprint
    (p : RealFireMapProps) (s : MapState) (L : FireLayers) :
  windSpeed p = 0 ->
  updateFireLayers p s = Some L ->
  majorAxis L = minorAxis L * 1.2
  /\ (majorAxis L = minorAxis L <-> currentRadius L = 0)
  /\ centerDisplacement L = 0.
Proof.
  intros Hw HL. pose proof (centerDisplacement_zero _ _ _ HL) as Hc.
  apply updateFireLayers_Some in HL as (_ & Hmaj & Hmin & _).
  destruct (getElongationFactor_cases (windSpeed p)) as (H0 & _).
  rewrite H0 in Hmaj by lra.
  rewrite Hmaj, Hmin. split; [reflexivity|]. split; [lra | exact Hc].
Qed.

Lemma no_wind_footprint_witness :
  exists L,
    updateFireLayers (withWindSpeed scenarioB 0) animationDone = Some L
    /\ majorAxis L = minorAxis L * 1.2.
Proof.
  eexists. split; [reflexivity|].
  exact (proj1 (no_wind_footprint (withWindSpeed scenarioB 0) animationDone _
                  eq_refl eq_refl)).
Defined.

(** *** Monotone stretch (C4) *)

(** C4.  For a fixed predicted area, animation progress and wind direction,
    the major axis does not decrease when the wind speed increases. *)
Theorem major_axis_monotone_in_wind_speed
    (p : RealFireMapProps) (s : MapState) (w1 w2 : R) (L1 L2 : FireLayers) :
  0 <= predictedAcres p ->
  0 <= animationProgress s ->
  w1 <= w2 ->
  updateFireLayers (withWindSpeed p w1) s = Some L1 ->
  updateFireLayers (withWindSpeed p w2) s = Some L2 ->
  majorAxis L1 <= majorAxis L2.
Proof.
  intros _ Hprog Hw H1 H2.
  apply updateFireLayers_Some in H1 as (Hr1 & Hmaj1 & _).
  apply updateFireLayers_Some in H2 as (Hr2 & Hmaj2 & _).
  rewrite Hmaj1, Hmaj2, Hr1, Hr2. simpl.
  pose proof (acresToRadius_nonneg (predictedAcres p)) as Hrad.
  pose proof (getElongationFactor_mono _ _ Hw) as Hmono.
  apply Rmult_le_compat_l; [|exact Hmono].
  apply Rmult_le_pos; [exact Hrad | lra].
Qed.

Lemma major_axis_monotone_in_wind_speed_witness :
  exists L1 L2,
    updateFireLayers (withWindSpeed scenarioB 10) animationDone = Some L1
    /\ updateFireLayers (withWindSpeed scenarioB 30) animationDone = Some L2
    /\ majorAxis L1 <= majorAxis L2.
Proof.
  eexists. eexists. split; [reflexivity|]. split; [reflexivity|].
  apply (major_axis_monotone_in_wind_speed scenarioB animationDone 10 30);
    simpl; try lra; reflexivity.
Defined.

(** *** Position of the ellipse (C5) *)

(** C5, as written, fails on the component.  In scenario B the ellipse is
    centred on the origin marker, a displacement of 0, while half the
    difference of the axes is positive. *)
Lemma ellipse_center_is_not_shifted :
  exists L, updateFireLayers scenarioB animationDone = Some L
    /\ centerDisplacement L = 0
    /\ centerDisplacement L <> (majorAxis L - minorAxis L) / 2.
Proof.
  destruct (updateFireLayers scenarioB animationDone) as [L|] eqn:E;
    [|discriminate E].
  exists L. split; [reflexivity|].
  pose proof (centerDisplacement_zero _ _ _ E) as Hc.
  split; [exact Hc|]. rewrite Hc.
  assert (Hpos : 0 < currentRadius L)
    by (apply (scenario_radius_pos scenarioB); [simpl; lra | exact E]).
  apply updateFireLayers_Some in E as (_ & Hmaj & Hmin & _).
  rewrite Hmaj, Hmin.
  pose proof (getElongationFactor_ge_1 (windSpeed scenarioB)). nra.
Qed.

(** C5, amended.  For every run of the fire layers the ellipse is built around
    the literal origin: its centre is the position of the origin marker, the
    displacement is 0, and every sampled vertex has its mirror image through
    the origin among the samples (32 places further), so the ignition point is
    the centre of the footprint. *)
Theorem ellipse_is_centered_on_origin
    (p : RealFireMapProps) (s : MapState) (L : FireLayers) :
  updateFireLayers p s = Some L ->
  ellipseCenter L = (longitude p, latitude p)
  /\ originMarker L = ellipseCenter L
  /\ centerDisplacement L = 0
  /\ forall i : nat, (i <= 32)%nat ->
     exists P Q : LngLat,
       nth_error (ellipseCoords L) i = Some P
       /\ nth_error (ellipseCoords L) (i + 32) = Some Q
       /\ fst P + fst Q = 2 * longitude p
       /\ snd P + snd Q = 2 * latitude p.
Proof.
  intros HL. pose proof (centerDisplacement_zero _ _ _ HL) as Hd.
  apply updateFireLayers_Some in HL
    as (_ & _ & _ & _ & Hc & Ho & Hcoords & _).
  split; [exact Hc|]. split; [now rewrite Hc, Ho|]. split; [exact Hd|].
  intros i Hi. rewrite Hcoords.
  do 2 eexists.
  split; [apply createEllipseCoordinates_nth; unfold defaultNumPoints; lia|].
  split; [apply createEllipseCoordinates_nth; unfold defaultNumPoints; lia|].
  change defaultNumPoints with (2 * 32)%nat.
  apply ellipsePoint_opposite. lia.
Qed.

Lemma ellipse_is_centered_on_origin_witness :
  exists L, updateFireLayers scenarioB animationDone = Some L
    /\ originMarker L = ellipseCenter L.
Proof.
  eexists. split; [reflexivity|].
  exact (proj1 (proj2 (ellipse_is_centered_on_origin scenarioB animationDone _
                         eq_refl))).
Defined.

End RealFireMapFacts.

(** ** The map viewer *)

Module FireMapViewerFacts.
Import FireMapViewer.

(** A reply without counties is shown like any other: the panel with its
    figures, no county list, no error card. *)
Lemma empty_reply_is_rendered (st : ViewerState) (data : FireMapResponse) :
  affected_counties data = [] ->
  render (fetchMap (MapOk data) st)
  = MapView (Some {| affectedPopulation := total_population data;
                     fireRadius := radius_km data;
                     countiesAffected := 0;
                     mostAffected := None;
                     moreCounties := None |}).
Proof.
  intros H. unfold render, fetchMap, populationPanel. simpl. now rewrite H.
Qed.

(** The viewer lists the counties in the order it received them. *)
Lemma listed_in_received_order (data : FireMapResponse)
      (shown : list AffectedCounty) :
  mostAffected (populationPanel data) = Some shown ->
  shown = firstn 6 (affected_counties data).
Proof.
  unfold populationPanel. simpl.
  destruct (0 <? List.length (affected_counties data))%nat;
    [now intros [= <-] | discriminate].
Qed.

End FireMapViewerFacts.

(** ** Ranking and totals of the impact engine *)

Module ImpactFacts.
Import Impact.
Local Open Scope Z_scope.

(** *** The order on county identifiers *)

Lemma string_compare_refl (a : string) : String.compare a a = Eq.
Proof. now apply OrderedTypeEx.String_as_OT.cmp_eq. Qed.

Lemma string_leb_trans (a b c : string) :
  String.leb a b = true -> String.leb b c = true -> String.leb a c = true.
Proof.
  unfold String.leb. intros Hab Hbc.
  destruct (String.compare a c) eqn:Hac; try reflexivity. exfalso.
  assert (Hca : OrderedTypeEx.String_as_OT.lt c a).
  { apply OrderedTypeEx.String_as_OT.cmp_lt.
    unfold OrderedTypeEx.String_as_OT.cmp.
    rewrite String.compare_antisym, Hac. reflexivity. }
  destruct (String.compare a b) eqn:Eab; try discriminate;
    destruct (String.compare b c) eqn:Ebc; try discriminate.
  - apply String.compare_eq_iff in Eab, Ebc. subst.
    now rewrite string_compare_refl in Hac.
  - apply String.compare_eq_iff in Eab. subst. congruence.
  - apply String.compare_eq_iff in Ebc. subst. congruence.
  - apply OrderedTypeEx.String_as_OT.cmp_lt in Eab, Ebc.
    pose proof (OrderedTypeEx.String_as_OT.lt_trans _ _ _ Eab Ebc) as Hlt.
    pose proof (OrderedTypeEx.String_as_OT.lt_trans _ _ _ Hlt Hca) as Haa.
    exact (OrderedTypeEx.String_as_OT.lt_not_eq _ _ Haa Logic.eq_refl).
Qed.

(** *** The ranking order *)

Lemma ranks_before_ranked (a b : CountyContribution) :
  ranks_before a b = true <-> ranked a b.
Proof.
  unfold ranks_before, ranked.
  rewrite orb_true_iff, andb_true_iff, Z.ltb_lt, Z.eqb_eq. reflexivity.
Qed.

Lemma ranked_trans (a b c : CountyContribution) :
  ranked a b -> ranked b c -> ranked a c.
Proof.
  unfold ranked. intros [Hab | [Hab Lab]] [Hbc | [Hbc Lbc]].
  - left. lia.
  - left. lia.
  - left. lia.
  - right. split; [lia|]. eapply string_leb_trans; eassumption.
Qed.

Lemma ranks_before_transitive :
  Transitive (fun a b => is_true (ContributionOrder.leb a b)).
Proof.
  intros a b c Hab Hbc. unfold is_true, ContributionOrder.leb in *.
  rewrite ranks_before_ranked in *. eapply ranked_trans; eassumption.
Qed.

Lemma sort_contributions_sorted (l : list CountyContribution) :
  StronglySorted ranked (sort_contributions l).
Proof.
  pose proof (ContributionSort.StronglySorted_sort l ranks_before_transitive)
    as H.
  unfold sort_contributions.
  induction H as [|a r Hr IH Hall]; constructor.
  - exact IH.
  - eapply Forall_impl; [|exact Hall].
    intros b Hb. now apply ranks_before_ranked.
Qed.

Lemma sort_contributions_permutation (l : list CountyContribution) :
  Permutation l (sort_contributions l).
Proof. apply ContributionSort.Permuted_sort. Qed.

Lemma sum_contributing_permutation (l l' : list CountyContribution) :
  Permutation l l' -> sum_contributing l = sum_contributing l'.
Proof.
  induction 1 as [|x l l' _ IH|x y l|l l' l'' _ IH1 _ IH2]; simpl.
  - reflexivity.
  - now rewrite IH.
  - lia.
  - congruence.
Qed.

(** In a strongly sorted list an earlier row is related to every later one. *)
Lemma StronglySorted_nth_error {A : Type} (R : A -> A -> Prop) (l : list A) :
  StronglySorted R l ->
  forall (i j : nat) (a b : A),
    (i < j)%nat -> nth_error l i = Some a -> nth_error l j = Some b -> R a b.
Proof.
  induction 1 as [|x l Hl IH Hall]; intros i j a b Hij Ha Hb.
  - destruct i; discriminate Ha.
  - destruct j as [|j]; [lia|]. simpl in Hb.
    destruct i as [|i]; simpl in Ha.
    + injection Ha as <-. rewrite Forall_forall in Hall.
      apply Hall. eapply nth_error_In; eassumption.
    + apply (IH i j); [lia | assumption | assumption].
Qed.

(** *** The aggregator *)

Section EngineFacts.

Variable Geometry : Type.
Variable area : Geometry -> Q.
Variable intersection_area : Geometry -> Geometry -> Q.
Variable bbox_intersects : Geometry -> Geometry -> bool.
Variable ellipse_polygon : Q -> Q -> Q -> Q -> Q -> Geometry.
Variable shift_downwind : Q -> Q -> Q -> Q -> Q * Q.
Variable W_max : Q.
Variable epsilon : Q.
Variable in_envelope : Q -> Q -> bool.

#[local] Abbreviation County := (County Geometry).
#[local] Abbreviation SpreadFootprint := (SpreadFootprint Geometry).
#[local] Abbreviation aggregate := (aggregate Geometry area intersection_area
                                 bbox_intersects epsilon).
#[local] Abbreviation included := (included Geometry area intersection_area
                               bbox_intersects epsilon).
#[local] Abbreviation contribution_of := (contribution_of Geometry area intersection_area
                                             epsilon).
#[local] Abbreviation candidates := (candidates Geometry bbox_intersects).
#[local] Abbreviation build_footprint := (build_footprint Geometry ellipse_polygon
                                             shift_downwind W_max).
#[local] Abbreviation validate := (validate in_envelope).
#[local] Abbreviation meets_no_county :=
  (meets_no_county Geometry intersection_area bbox_intersects).
#[local] Abbreviation compute_impact :=
  (compute_impact Geometry area intersection_area bbox_intersects
                  ellipse_polygon shift_downwind W_max epsilon in_envelope).

(** C7.  In every impact result the contributions are ranked: of two rows the
    earlier one has at least the contributing population of the later one,
    and with equal contributing populations its county identifier is not the
    greater; the rows are those of the included counties; and
    [total_population] is the sum of their contributing populations. *)
Theorem contributions_ranked_and_summed
    (dataset : list County) (fp : SpreadFootprint) :
  let result := aggregate dataset fp in
  StronglySorted ranked (contributions Geometry result)
  /\ (forall (i j : nat) (a b : CountyContribution),
        (i < j)%nat ->
        nth_error (contributions Geometry result) i = Some a ->
        nth_error (contributions Geometry result) j = Some b ->
        contributing_population b <= contributing_population a
        /\ (contributing_population a = contributing_population b ->
            String.leb (county_id a) (county_id b) = true))
  /\ Permutation (included dataset fp) (contributions Geometry result)
  /\ total_population Geometry result
     = sum_contributing (contributions Geometry result).
Proof.
  intros result. unfold result, Impact.aggregate. simpl.
  pose proof (sort_contributions_sorted (included dataset fp)) as Hs.
  split; [exact Hs|]. split; [|split].
  - intros i j a b Hij Ha Hb.
    pose proof (StronglySorted_nth_error _ _ Hs i j a b Hij Ha Hb)
      as [Hlt | [Heq Hid]].
    + split; [lia | intros E; lia].
    + split; [lia | intros _; exact Hid].
  - apply sort_contributions_permutation.
  - apply sum_contributing_permutation, sort_contributions_permutation.
Qed.

(** A county the footprint does not reach contributes no row. *)
Lemma contribution_of_disjoint (fp : SpreadFootprint) (c : County) :
  (0 <= epsilon)%Q ->
  (intersection_area (polygon Geometry fp) (boundary Geometry c) == 0)%Q ->
  contribution_of fp c = None.
Proof.
  intros Heps H0. unfold Impact.contribution_of.
  destruct (Qeq_bool (area (boundary Geometry c)) 0); [reflexivity|].
  assert (Hf : (clamp (intersection_area (polygon Geometry fp)
                         (boundary Geometry c) / area (boundary Geometry c))
                      0 1 == 0)%Q).
  { unfold clamp. rewrite H0. unfold Qdiv. rewrite Qmult_0_l.
    rewrite (Q.min_l 0 1) by discriminate. apply Q.max_id. }
  assert (Hle : Qle_bool
                  (clamp (intersection_area (polygon Geometry fp)
                            (boundary Geometry c) / area (boundary Geometry c))
                         0 1) epsilon = true).
  { apply Qle_bool_iff. rewrite Hf. exact Heps. }
  now rewrite Hle.
Qed.

Lemma included_nil (dataset : list County) (fp : SpreadFootprint) :
  (0 <= epsilon)%Q -> meets_no_county dataset fp -> included dataset fp = [].
Proof.
  intros Heps Hno. unfold Impact.included, Impact.candidates.
  induction dataset as [|c cs IH]; [reflexivity|]. simpl.
  assert (Hcs : meets_no_county cs fp)
    by (intros c' Hc'; apply Hno; now right).
  destruct (Hno c (or_introl Logic.eq_refl)) as [Hb | Hz].
  - rewrite Hb. now apply IH.
  - destruct (bbox_intersects _ _); [|now apply IH].
    simpl. rewrite (contribution_of_disjoint fp c Heps Hz). simpl.
    now apply IH.
Qed.

Lemma validate_Ok (r r' : FireSpreadRequest) :
  validate r = Ok r' ->
  r' = r
  /\ in_envelope (origin_latitude r) (origin_longitude r) = true
  /\ Qle_bool (base_radius_km r) 0 = false
  /\ Qle_bool 0 (wind_speed r) = true.
Proof.
  unfold Impact.validate.
  destruct (in_envelope _ _); simpl; [|discriminate].
  destruct (Qle_bool (base_radius_km r) 0); [discriminate|].
  destruct (Qle_bool 0 (wind_speed r)); simpl; [|discriminate].
  intros [= <-]. repeat split.
Qed.

(** C8.  A valid request always yields a footprint, and when that footprint
    meets no county of the dataset the impact computation returns an ordinary
    result, not an error: total population 0 and no contribution. *)
Theorem no_county_gives_empty_result
    (dataset : list County) (r : FireSpreadRequest) :
  (0 <= epsilon)%Q ->
  validate r = Ok r ->
  exists fp : SpreadFootprint,
    build_footprint r = Ok fp
    /\ (meets_no_county dataset fp ->
        compute_impact dataset r
        = Ok {| total_population := 0;
                contributions := [];
                footprint := fp |}).
Proof.
  intros Heps Hv. pose proof (validate_Ok _ _ Hv) as (_ & _ & Hrad & Hws).
  unfold Impact.compute_impact. rewrite Hv.
  unfold Impact.build_footprint. rewrite Hrad, Hws. simpl.
  eexists. split; [reflexivity|].
  intros Hno. unfold Impact.aggregate.
  rewrite (included_nil dataset _ Heps Hno). reflexivity.
Qed.

End EngineFacts.

(** *** The engine on the box geometry *)

(** The specified builder on scenario B: axes 6500 and 5000 metres, bearing
    65, shift 750 metres. *)
Example build_footprint_scenarioB :
  match build_footprint Box box_of_ellipse no_shift 60 scenarioB with
  | Ok fp =>
      (major_axis_m Box fp == 6500 /\ minor_axis_m Box fp == 5000
       /\ rotation_bearing_deg Box fp == 65 /\ origin_shift_m Box fp == 750)%Q
  | Failed _ => False
  end.
Proof. vm_compute. repeat split. Qed.

(** Ranking in the valley: the core county first, then the two that tie, the
    smaller identifier before the greater although the dataset lists it
    second. *)
Example valley_ranking :
  match compute_impact Box box_area box_intersection_area box_intersects
                       box_of_ellipse no_shift 60 0 usa_envelope
                       valley valleyFire with
  | Ok result =>
      map county_id (contributions Box result)
      = ["06999"; "06019"; "06107"]%string
      /\ map contributing_population (contributions Box result)
         = [403481; 2017; 2017]
      /\ total_population Box result = 407515
  | Failed _ => False
  end.
Proof. vm_compute. repeat split. Qed.

(** A radius that is not positive is refused. *)
Example negative_radius_is_refused :
  compute_impact Box box_area box_intersection_area box_intersects
                 box_of_ellipse no_shift 60 0 usa_envelope valley
                 {| origin_latitude := 36; origin_longitude := -119;
                    base_radius_km := -1; wind_speed := 0;
                    wind_direction := 0 |}%Q
  = Failed (InvalidRequestError "base_radius_km").
Proof. reflexivity. Qed.

Lemma no_county_gives_empty_result_witness :
  exists fp : SpreadFootprint Box,
    compute_impact Box box_area box_intersection_area box_intersects
                   box_of_ellipse no_shift 60 0 usa_envelope [fresno] offshore
    = Ok {| total_population := 0; contributions := []; footprint := fp |}.
Proof.
  destruct (no_county_gives_empty_result Box box_area box_intersection_area
              box_intersects box_of_ellipse no_shift 60 0 usa_envelope
              [fresno] offshore)
    as (fp & Hfp & Hres).
  - discriminate.
  - reflexivity.
  - exists fp. apply Hres.
    vm_compute in Hfp. injection Hfp as <-.
    intros c [<- | []]. left. reflexivity.
Defined.

End ImpactFacts.

(** ** The prediction call *)

Module ApiFacts.
Import Api.
Local Open Scope Q_scope.

Lemma lightningFire_score : mockRiskScore lightningFire == 83.
Proof. reflexivity. Qed.

(** When the backend answers, its body is the result, whatever the draw. *)
Lemma predictFireSize_backend (data : PredictionRequest)
      (body : PredictionResponse) (random : Q) :
  predictFireSize data (FetchOk body) random = body.
Proof. reflexivity. Qed.

(** Without an answer the result is the demo prediction. *)
Lemma predictFireSize_fallback (data : PredictionRequest)
      (backend : FetchOutcome) (random : Q) :
  (forall body, backend <> FetchOk body) ->
  predictFireSize data backend random = generateMockPrediction data random.
Proof.
  intros H. destruct backend as [| |body]; try reflexivity.
  now destruct (H body).
Qed.

(** C9, as written, fails on the prediction call.  With the backend
    unreachable, the same request gives 10000 acres when [Math.random()]
    returns 0 and 30000 acres when it returns 1/2: two calls with identical
    input, different results. *)
Lemma prediction_depends_on_random_draw :
  predicted_acres (predictFireSize lightningFire FetchFailed 0) == 10000
  /\ predicted_acres (predictFireSize lightningFire FetchFailed (1 # 2))
     == 30000
  /\ predictFireSize lightningFire FetchFailed 0
     <> predictFireSize lightningFire FetchFailed (1 # 2).
Proof.
  split; [reflexivity|]. split; [reflexivity|].
  intros H. apply (f_equal predicted_acres) in H.
  vm_compute in H. discriminate H.
Qed.

(** C9, amended.  The result of the prediction call is determined by the
    request together with the reply of the backend and, on the fallback path,
    the one random draw: whatever two draws are made, the risk score, the risk
    category and colour, the size class, the response level, the resources,
    the actions and the estimated duration agree; with a backend reply the
    whole result agrees.  Only the predicted acres and hectares of the
    fallback vary with the draw. *)
Theorem prediction_deterministic_up_to_draw
    (data : PredictionRequest) (backend : FetchOutcome) (random1 random2 : Q) :
  let first := predictFireSize data backend random1 in
  let second := predictFireSize data backend random2 in
  risk_score first = risk_score second
  /\ risk_category first = risk_category second
  /\ risk_color first = risk_color second
  /\ fire_size_class first = fire_size_class second
  /\ response_level first = response_level second
  /\ resources first = resources second
  /\ actions first = actions second
  /\ estimated_duration first = estimated_duration second
  /\ (forall body, backend = FetchOk body -> first = second)
  /\ (random1 = random2 -> first = second).
Proof.
  intros first second. unfold first, second.
  destruct backend as [| |body]; simpl;
    repeat split; try reflexivity; try discriminate; intros; subst;
    reflexivity.
Qed.

End ApiFacts.

(** ** The prediction history *)

Module StorageFacts.
Import Storage.

Section LocalStorageFacts.

Variable Text : Type.
Variable truthy : Text -> bool.
Variable JSON_stringify : list HistoricalPrediction -> Text.
Variable JSON_parse : Text -> option (list HistoricalPrediction).

(** What the platform guarantees of its JSON functions on histories: the
    serialisation of an array is not the empty text, and parsing it gives the
    array back. *)
Hypothesis stringify_truthy :
  forall history, truthy (JSON_stringify history) = true.
Hypothesis parse_stringify :
  forall history, JSON_parse (JSON_stringify history) = Some history.

#[local] Abbreviation LocalStorage := (LocalStorage Text).
#[local] Abbreviation getHistory := (getHistory Text truthy JSON_parse).
#[local] Abbreviation savePrediction :=
  (savePrediction Text truthy JSON_stringify JSON_parse).
#[local] Abbreviation deletePrediction :=
  (deletePrediction Text truthy JSON_stringify JSON_parse).
#[local] Abbreviation clearHistory := (clearHistory Text).
#[local] Abbreviation call := (call Text truthy JSON_stringify JSON_parse).
#[local] Abbreviation calls := (calls Text truthy JSON_stringify JSON_parse).

Lemma getHistory_setItem (ls : LocalStorage)
      (history : list HistoricalPrediction) :
  getHistory (setItem Text ls STORAGE_KEY (JSON_stringify history)) = history.
Proof.
  unfold Storage.getHistory, getItem, setItem.
  rewrite String.eqb_refl, stringify_truthy, parse_stringify. reflexivity.
Qed.

Lemma getHistory_savePrediction (p : HistoricalPrediction)
      (ls : LocalStorage) :
  getHistory (savePrediction p ls) = firstn 50 (p :: getHistory ls).
Proof. unfold Storage.savePrediction. apply getHistory_setItem. Qed.

Lemma getHistory_deletePrediction (id' : string) (ls : LocalStorage) :
  getHistory (deletePrediction id' ls)
  = filter (fun p => negb (String.eqb (id p) id')) (getHistory ls).
Proof. unfold Storage.deletePrediction. apply getHistory_setItem. Qed.

Lemma getHistory_clearHistory (ls : LocalStorage) :
  getHistory (clearHistory ls) = [].
Proof.
  unfold Storage.getHistory, Storage.clearHistory, getItem, removeItem.
  now rewrite String.eqb_refl.
Qed.

Lemma call_keeps_bound (c : Call) (ls : LocalStorage) :
  (List.length (getHistory ls) <= 50)%nat ->
  (List.length (getHistory (call c ls)) <= 50)%nat.
Proof.
  intros H. destruct c as [p|id'|]; unfold call.
  - rewrite getHistory_savePrediction. apply firstn_le_length.
  - rewrite getHistory_deletePrediction.
    etransitivity; [apply filter_length_le | exact H].
  - rewrite getHistory_clearHistory. simpl. lia.
Qed.

(** C10.  After any call of [savePrediction] the history holds at most 50
    entries and starts with the prediction just saved; [deletePrediction] and
    [clearHistory] keep the bound, and so does every run of calls;
    [getHistory] is empty when the item is missing and when it does not
    parse. *)
Theorem history_holds_at_most_50 :
  (forall (p : HistoricalPrediction) (ls : LocalStorage),
     (List.length (getHistory (savePrediction p ls)) <= 50)%nat
     /\ hd_error (getHistory (savePrediction p ls)) = Some p)
  /\ (forall (id' : string) (ls : LocalStorage),
        (List.length (getHistory ls) <= 50)%nat ->
        (List.length (getHistory (deletePrediction id' ls)) <= 50)%nat)
  /\ (forall ls : LocalStorage,
        (List.length (getHistory (clearHistory ls)) <= 50)%nat)
  /\ (forall (cs : list Call) (ls : LocalStorage),
        (List.length (getHistory ls) <= 50)%nat ->
        (List.length (getHistory (calls cs ls)) <= 50)%nat)
  /\ (forall ls : LocalStorage,
        getItem Text ls STORAGE_KEY = None -> getHistory ls = [])
  /\ (forall (ls : LocalStorage) (data : Text),
        getItem Text ls STORAGE_KEY = Some data ->
        JSON_parse data = None -> getHistory ls = []).
Proof.
  split; [|split; [|split; [|split; [|split]]]].
  - intros p ls. rewrite getHistory_savePrediction. split.
    + apply firstn_le_length.
    + reflexivity.
  - intros id' ls. apply (call_keeps_bound (Delete id')).
  - intros ls. rewrite getHistory_clearHistory. simpl. lia.
  - intros cs. induction cs as [|c cs IH]; intros ls H; simpl.
    + exact H.
    + apply IH. now apply call_keeps_bound.
  - intros ls H. unfold Storage.getHistory. now rewrite H.
  - intros ls data H Hp. unfold Storage.getHistory. rewrite H, Hp.
    now destruct (truthy data).
Qed.

End LocalStorageFacts.

Lemma history_holds_at_most_50_witness :
  (List.length
     (getHistory StoredText storedTruthy storedParse
        (savePrediction StoredText storedTruthy Serialized storedParse
           firstEntry emptyStore)) <= 50)%nat
  /\ hd_error
       (getHistory StoredText storedTruthy storedParse
          (savePrediction StoredText storedTruthy Serialized storedParse
             firstEntry emptyStore))
     = Some firstEntry.
Proof.
  exact (proj1 (history_holds_at_most_50 StoredText storedTruthy Serialized
                  storedParse (fun _ => Logic.eq_refl)
                  (fun _ => Logic.eq_refl))
               firstEntry emptyStore).
Defined.

End StorageFacts.

(** ** The prediction history, call by call *)

Module HistoryFacts.
Import Storage.

Lemma firstn_app_firstn {A : Type} (n : nat) (a b : list A) :
  firstn n (a ++ firstn n b) = firstn n (a ++ b).
Proof.
  rewrite !firstn_app, firstn_firstn.
  now rewrite (Nat.min_l (n - List.length a) n) by lia.
Qed.

Lemma filter_all {A : Type} (f : A -> bool) (l : list A) :
  (forall x, In x l -> f x = true) -> filter f l = l.
Proof.
  induction l as [|x l IH]; intros H; simpl; [reflexivity|].
  rewrite (H x (or_introl Logic.eq_refl)).
  f_equal. apply IH. intros y Hy. apply H. now right.
Qed.

Section LocalStorageCalls.

Variable Text : Type.
Variable truthy : Text -> bool.
Variable JSON_stringify : list HistoricalPrediction -> Text.
Variable JSON_parse : Text -> option (list HistoricalPrediction).

Hypothesis stringify_truthy :
  forall history, truthy (JSON_stringify history) = true.
Hypothesis parse_stringify :
  forall history, JSON_parse (JSON_stringify history) = Some history.

#[local] Abbreviation LocalStorage := (LocalStorage Text).
#[local] Abbreviation getHistory := (getHistory Text truthy JSON_parse).
#[local] Abbreviation savePrediction :=
  (savePrediction Text truthy JSON_stringify JSON_parse).
#[local] Abbreviation deletePrediction :=
  (deletePrediction Text truthy JSON_stringify JSON_parse).
#[local] Abbreviation clearHistory := (clearHistory Text).
#[local] Abbreviation call := (call Text truthy JSON_stringify JSON_parse).
#[local] Abbreviation calls := (calls Text truthy JSON_stringify JSON_parse).

Lemma saved (p : HistoricalPrediction) (ls : LocalStorage) :
  getHistory (savePrediction p ls) = firstn 50 (p :: getHistory ls).
Proof.
  exact (StorageFacts.getHistory_savePrediction Text truthy JSON_stringify
           JSON_parse stringify_truthy parse_stringify p ls).
Qed.

Lemma deleted (id' : string) (ls : LocalStorage) :
  getHistory (deletePrediction id' ls)
  = filter (fun p => negb (String.eqb (id p) id')) (getHistory ls).
Proof.
  exact (StorageFacts.getHistory_deletePrediction Text truthy JSON_stringify
           JSON_parse stringify_truthy parse_stringify id' ls).
Qed.

(** X1.  After [deletePrediction(id)] no entry of that id is left and every
    other entry is still there, in the order it had; the item is written in
    any case, so a store that was missing or did not parse holds the empty
    history afterwards. *)
Theorem delete_removes_exactly_that_id (id' : string) (ls : LocalStorage) :
  let after := getHistory (deletePrediction id' ls) in
  (forall p, In p after <-> In p (getHistory ls) /\ id p <> id')
  /\ after = filter (fun p => negb (String.eqb (id p) id')) (getHistory ls)
  /\ getItem Text (deletePrediction id' ls) STORAGE_KEY
     = Some (JSON_stringify after)
  /\ (getHistory ls = [] -> after = []).
Proof.
  intros after. unfold after. rewrite deleted.
  split; [|split; [reflexivity|split]].
  - intros p. rewrite filter_In, negb_true_iff, String.eqb_neq. reflexivity.
  - unfold Storage.deletePrediction, getItem, setItem.
    now rewrite String.eqb_refl.
  - intros ->. reflexivity.
Qed.

(** X2.  Saving onto a history of fewer than 50 entries puts the prediction in
    front of all of them; saving onto a history of 50 entries drops the oldest
    one. *)
Theorem save_drops_only_the_oldest (p : HistoricalPrediction)
    (ls : LocalStorage) :
  ((List.length (getHistory ls) < 50)%nat ->
   getHistory (savePrediction p ls) = p :: getHistory ls)
  /\ (List.length (getHistory ls) = 50%nat ->
      getHistory (savePrediction p ls) = p :: removelast (getHistory ls)).
Proof.
  rewrite saved. split; intros H.
  - apply firstn_all2. simpl. lia.
  - change (firstn 50 (p :: getHistory ls))
      with (p :: firstn 49 (getHistory ls)).
    f_equal. rewrite removelast_firstn_len, H. reflexivity.
Qed.

Lemma getHistory_saves (ps : list HistoricalPrediction) (ls : LocalStorage) :
  ps <> [] ->
  getHistory (calls (map Save ps) ls) = firstn 50 (rev ps ++ getHistory ls).
Proof.
  revert ls. induction ps as [|p ps IH]; intros ls Hne; [congruence|].
  simpl. unfold Storage.calls in *. simpl.
  destruct ps as [|q ps].
  - simpl. apply saved.
  - rewrite IH by discriminate. rewrite saved.
    rewrite firstn_app_firstn. simpl. now rewrite <- !app_assoc.
Qed.

(** X3.  After any number of predictions saved one after the other onto a
    history within the bound, the history lists them newest first, followed by
    what was there, and keeps the first 50 of that. *)
Theorem saves_keep_the_newest_50 (ps : list HistoricalPrediction)
    (ls : LocalStorage) :
  (List.length (getHistory ls) <= 50)%nat ->
  getHistory (calls (map Save ps) ls) = firstn 50 (rev ps ++ getHistory ls).
Proof.
  intros H. destruct ps as [|p ps].
  - unfold Storage.calls. cbn [map fold_left rev app].
    symmetry. now apply firstn_all2.
  - apply getHistory_saves. discriminate.
Qed.

(** X4.  No call of the module reads or writes another key of the store. *)
Theorem other_keys_are_untouched (c : Call) (ls : LocalStorage)
    (key : string) :
  key <> STORAGE_KEY ->
  getItem Text (call c ls) key = getItem Text ls key.
Proof.
  intros H. apply String.eqb_neq in H.
  destruct c; unfold Storage.call, Storage.savePrediction,
    Storage.deletePrediction, Storage.clearHistory, getItem, setItem,
    removeItem; now rewrite H.
Qed.

(** X5.  Saving a prediction whose id is new onto a history of fewer than 50
    entries and deleting that id again gives back the history as it was. *)
Theorem save_then_delete_restores (p : HistoricalPrediction)
    (ls : LocalStorage) :
  (List.length (getHistory ls) < 50)%nat ->
  (forall q, In q (getHistory ls) -> id q <> id p) ->
  getHistory (deletePrediction (id p) (savePrediction p ls)) = getHistory ls.
Proof.
  intros Hlen Hnew. rewrite deleted, saved.
  rewrite firstn_all2 by (simpl; lia). simpl.
  rewrite String.eqb_refl. simpl.
  apply filter_all. intros q Hq.
  apply negb_true_iff, String.eqb_neq. now apply Hnew.
Qed.

End LocalStorageCalls.

(** *** On the concrete store *)

Definition storedTruthy_ok :
  forall history, storedTruthy (Serialized history) = true :=
  fun _ => Logic.eq_refl.

Definition storedParse_ok :
  forall history, storedParse (Serialized history) = Some history :=
  fun _ => Logic.eq_refl.

Lemma delete_removes_exactly_that_id_witness :
  getHistory StoredText storedTruthy storedParse
    (deletePrediction StoredText storedTruthy Serialized storedParse
       (id firstEntry)
       (savePrediction StoredText storedTruthy Serialized storedParse
          firstEntry emptyStore))
  = [].
Proof.
  pose proof (delete_removes_exactly_that_id StoredText storedTruthy
                Serialized storedParse storedTruthy_ok storedParse_ok
                (id firstEntry)
                (savePrediction StoredText storedTruthy Serialized storedParse
                   firstEntry emptyStore)) as (_ & H & _).
  rewrite H. reflexivity.
Defined.

Lemma save_drops_only_the_oldest_witness :
  getHistory StoredText storedTruthy storedParse
    (savePrediction StoredText storedTruthy Serialized storedParse
       firstEntry emptyStore)
  = [firstEntry].
Proof.
  apply (proj1 (save_drops_only_the_oldest StoredText storedTruthy Serialized
                  storedParse storedTruthy_ok storedParse_ok
                  firstEntry emptyStore)).
  simpl. lia.
Defined.

Lemma saves_keep_the_newest_50_witness :
  getHistory StoredText storedTruthy storedParse
    (calls StoredText storedTruthy Serialized storedParse
       (map Save [firstEntry; firstEntry]) emptyStore)
  = firstn 50 (rev [firstEntry; firstEntry] ++ []).
Proof.
  apply (saves_keep_the_newest_50 StoredText storedTruthy Serialized
           storedParse storedTruthy_ok storedParse_ok
           [firstEntry; firstEntry] emptyStore).
  simpl. lia.
Defined.

Lemma other_keys_are_untouched_witness :
  getItem StoredText
    (call StoredText storedTruthy Serialized storedParse
       (Save firstEntry) emptyStore) "theme"
  = None.
Proof.
  rewrite (other_keys_are_untouched StoredText storedTruthy Serialized
             storedParse (Save firstEntry) emptyStore "theme").
  - reflexivity.
  - discriminate.
Defined.

Lemma save_then_delete_restores_witness :
  getHistory StoredText storedTruthy storedParse
    (deletePrediction StoredText storedTruthy Serialized storedParse
       (id firstEntry)
       (savePrediction StoredText storedTruthy Serialized storedParse
          firstEntry emptyStore))
  = getHistory StoredText storedTruthy storedParse emptyStore.
Proof.
  apply (save_then_delete_restores StoredText storedTruthy Serialized
           storedParse storedTruthy_ok storedParse_ok firstEntry emptyStore).
  - simpl. lia.
  - intros q [].
Defined.

End HistoryFacts.

(** ** The prediction page *)

Module IndexFacts.
Import Index.

Section PageFacts.

Variable Text : Type.
Variable truthy : Text -> bool.
Variable JSON_stringify : list Storage.HistoricalPrediction -> Text.
Variable JSON_parse : Text -> option (list Storage.HistoricalPrediction).

Hypothesis stringify_truthy :
  forall history, truthy (JSON_stringify history) = true.
Hypothesis parse_stringify :
  forall history, JSON_parse (JSON_stringify history) = Some history.

#[local] Abbreviation LocalStorage := (Storage.LocalStorage Text).
#[local] Abbreviation getHistory := (Storage.getHistory Text truthy JSON_parse).
#[local] Abbreviation handleSubmit :=
  (handleSubmit Text truthy JSON_stringify JSON_parse).
#[local] Abbreviation step := (step Text truthy JSON_stringify JSON_parse).
#[local] Abbreviation run := (run Text truthy JSON_stringify JSON_parse).
#[local] Abbreviation mount := (mount Text truthy JSON_parse).







Lemma step_keeps_history_in_step (e : Event) (st : IndexState)
      (ls : LocalStorage) :
  history st = getHistory ls ->
  history (fst (step e (st, ls))) = getHistory (snd (step e (st, ls))).
Proof.
  intros H. destruct e as [data [result|] newId now|item| |id'|]; simpl;
    try exact H; reflexivity.
Qed.

Lemma step_keeps_bound (e : Event) (st : IndexState) (ls : LocalStorage) :
  (List.length (getHistory ls) <= 50)%nat ->
  (List.length (getHistory (snd (step e (st, ls)))) <= 50)%nat.
Proof.
  intros H. destruct e as [data [result|] newId now|item| |id'|]; simpl;
    try exact H.
  - apply (StorageFacts.call_keeps_bound Text truthy JSON_stringify JSON_parse
             stringify_truthy parse_stringify (Storage.Save _) ls H).
  - apply (StorageFacts.call_keeps_bound Text truthy JSON_stringify JSON_parse
             stringify_truthy parse_stringify (Storage.Delete id') ls H).
  - apply (StorageFacts.call_keeps_bound Text truthy JSON_stringify JSON_parse
             stringify_truthy parse_stringify Storage.Clear ls H).
Qed.

Lemma run_keeps_history_in_step (events : list Event) (st : IndexState)
      (ls : LocalStorage) :
  history st = getHistory ls ->
  history (fst (run events (st, ls))) = getHistory (snd (run events (st, ls))).
Proof.
  revert st ls. induction events as [|e es IH]; intros st ls H.
  - exact H.
  - unfold Index.run in *. cbn [fold_left].
    pose proof (step_keeps_history_in_step e st ls H) as H1.
    destruct (step e (st, ls)) as [st1 ls1]. now apply IH.
Qed.

Lemma run_keeps_bound (events : list Event) (st : IndexState)
      (ls : LocalStorage) :
  (List.length (getHistory ls) <= 50)%nat ->
  (List.length (getHistory (snd (run events (st, ls)))) <= 50)%nat.
Proof.
  revert st ls. induction events as [|e es IH]; intros st ls H.
  - exact H.
  - unfold Index.run in *. cbn [fold_left].
    pose proof (step_keeps_bound e st ls H) as H1.
    destruct (step e (st, ls)) as [st1 ls1]. now apply IH.
Qed.

(** X8.  From the moment the page is mounted, whatever the user does
    (submissions that arrive or not, choosing, deleting and clearing entries),
    the list the page shows is the stored history; once that history is within
    50 entries it stays so. *)
Theorem page_history_follows_the_store (events : list Event)
    (ls : LocalStorage) :
  let page := run events (mount ls, ls) in
  history (fst page) = getHistory (snd page)
  /\ ((List.length (getHistory ls) <= 50)%nat ->
      (List.length (history (fst page)) <= 50)%nat).
Proof.
  intros page.
  assert (H : history (fst page) = getHistory (snd page))
    by (apply run_keeps_history_in_step; reflexivity).
  split; [exact H|]. intros B. rewrite H. now apply run_keeps_bound.
Qed.

End PageFacts.

(** *** On the concrete store *)


Lemma page_history_follows_the_store_witness :
  history
    (fst (run Storage.StoredText Storage.storedTruthy Storage.Serialized
            Storage.storedParse
            [Submit Api.lightningFire
                    (Resolved (Api.generateMockPrediction Api.lightningFire 0))
                    "pred_1" "2024-07-18T12:00:00.000Z";
             DeleteEntry "pred_1"]
            (mount Storage.StoredText Storage.storedTruthy
               Storage.storedParse Storage.emptyStore,
             Storage.emptyStore)))
  = Storage.getHistory Storage.StoredText Storage.storedTruthy
      Storage.storedParse
      (snd (run Storage.StoredText Storage.storedTruthy Storage.Serialized
              Storage.storedParse
              [Submit Api.lightningFire
                      (Resolved
                         (Api.generateMockPrediction Api.lightningFire 0))
                      "pred_1" "2024-07-18T12:00:00.000Z";
               DeleteEntry "pred_1"]
              (mount Storage.StoredText Storage.storedTruthy
                 Storage.storedParse Storage.emptyStore,
               Storage.emptyStore))).
Proof.
  exact (proj1 (page_history_follows_the_store Storage.StoredText
                  Storage.storedTruthy Storage.Serialized Storage.storedParse
                  HistoryFacts.storedTruthy_ok HistoryFacts.storedParse_ok
                  [Submit Api.lightningFire
                          (Resolved
                             (Api.generateMockPrediction Api.lightningFire 0))
                          "pred_1" "2024-07-18T12:00:00.000Z";
                   DeleteEntry "pred_1"]
                  Storage.emptyStore)).
Defined.

End IndexFacts.

(** ** The spread animation *)

Module FireAnimationFacts.
Import FireAnimation.

Lemma animation_S (frames : nat) (progress : Z) :
  animation (S frames) progress
  = if snd (animate progress) then
      match animation frames (fst (animate progress)) with
      | Some rest => Some (fst (animate progress) :: rest)
      | None => None
      end
    else Some [fst (animate progress)].
Proof. cbn [animation]. now destruct (animate progress). Qed.

Lemma animation_more (frames : nat) (progress : Z) (shown : list Z) :
  animation frames progress = Some shown ->
  animation (S frames) progress = Some shown.
Proof.
  revert progress shown.
  induction frames as [|n IH]; intros progress shown H; [discriminate H|].
  rewrite animation_S in H. rewrite (animation_S (S n)).
  destruct (snd (animate progress)); [|exact H].
  destruct (animation n (fst (animate progress))) as [rest|] eqn:E;
    [|discriminate H].
  now rewrite (IH _ _ E).
Qed.

Lemma animation_enough (frames extra : nat) (progress : Z) (shown : list Z) :
  animation frames progress = Some shown ->
  animation (frames + extra) progress = Some shown.
Proof.
  intros H. induction extra as [|k IH].
  - now rewrite Nat.add_0_r.
  - rewrite Nat.add_succ_r. now apply animation_more.
Qed.

(** X9.  Once the map is loaded the spread animation runs for exactly 50
    frames, with the progress values 2, 4, ..., 100, and asks for no further
    frame; at its last frame the minor axis of the ellipse is the full radius
    of the predicted area.  Before the map is loaded it does not run. *)
Theorem spread_animation_runs_50_frames
    (frames : nat) (p : RealFireMap.RealFireMapProps) :
  (50 <= frames)%nat ->
  animateFireSpread true frames
  = Some (map (fun k => (2 * Z.of_nat (S k))%Z) (seq 0 50))
  /\ (forall L,
        RealFireMap.updateFireLayers p (atProgress 100) = Some L ->
        RealFireMap.minorAxis L
        = RealFireMap.acresToRadius (RealFireMap.predictedAcres p))
  /\ animateFireSpread false frames = Some [].
Proof.
  intros H. split; [|split].
  - replace frames with (50 + (frames - 50))%nat by lia.
    unfold animateFireSpread. apply animation_enough.
    vm_compute. reflexivity.
  - intros L HL.
    apply RealFireMapFacts.updateFireLayers_Some in HL as (Hr & _ & Hm & _).
    rewrite Hm, Hr. simpl. field.
  - reflexivity.
Qed.

Lemma spread_animation_runs_50_frames_witness :
  animateFireSpread true 60
  = Some (map (fun k => (2 * Z.of_nat (S k))%Z) (seq 0 50)).
Proof.
  apply (spread_animation_runs_50_frames 60 RealFireMap.scenarioB). lia.
Defined.

End FireAnimationFacts.

(** ** Geometry of the sampled ellipse *)

Module EllipseFacts.
Import RealFireMap.
Local Open Scope R_scope.

Lemma sin_cos_one (x : R) : cos x * cos x + sin x * sin x = 1.
Proof. pose proof (sin2_cos2 x) as H. unfold Rsqr in H. lra. Qed.

(** The offsets of a sample from the centre, in metres east and north, are
    the rotated point of the axis-parallel ellipse. *)
Lemma ellipsePoint_offsets (lng lat a b rr : R) (n i : nat) :
  cos (lat * PI / 180) <> 0 ->
  let P := ellipsePoint lng lat a b rr n i in
  let t := INR i / INR n * 2 * PI in
  (fst P - lng) * (111320 * cos (lat * PI / 180))
  = a * cos t * cos rr - b * sin t * sin rr
  /\ (snd P - lat) * 111320
     = a * cos t * sin rr + b * sin t * cos rr.
Proof.
  intros Hc. unfold ellipsePoint. cbv zeta. simpl fst. simpl snd.
  split; field; exact Hc.
Qed.

(** X10.  Every sampled position lies on the ellipse with the given half
    axes, turned by the rotation angle about the centre: its offsets east and
    north, turned back, satisfy the equation of the ellipse. *)
Theorem samples_lie_on_the_ellipse
    (centerLng centerLat major minor rotation : R) (numPoints i : nat) :
  (i <= numPoints)%nat ->
  cos (centerLat * PI / 180) <> 0 ->
  exists P : LngLat,
    nth_error (createEllipseCoordinates centerLng centerLat major minor
                 rotation numPoints) i = Some P
    /\ let east := (fst P - centerLng) * (111320 * cos (centerLat * PI / 180)) in
       let north := (snd P - centerLat) * 111320 in
       let r := rotation * PI / 180 in
       let u := east * cos r + north * sin r in
       let v := north * cos r - east * sin r in
       (minor * u) * (minor * u) + (major * v) * (major * v)
       = (major * minor) * (major * minor).
Proof.
  intros Hi Hc. eexists. split.
  - now apply RealFireMapFacts.createEllipseCoordinates_nth.
  - cbv zeta.
    destruct (ellipsePoint_offsets centerLng centerLat major minor
                (rotation * PI / 180) numPoints i Hc) as [He Hn].
    cbv zeta in He, Hn. rewrite He, Hn.
    set (t := INR i / INR numPoints * 2 * PI).
    set (r := rotation * PI / 180).
    pose proof (sin_cos_one t) as Ht. pose proof (sin_cos_one r) as Hr.
    replace ((major * cos t * cos r - minor * sin t * sin r) * cos r
             + (major * cos t * sin r + minor * sin t * cos r) * sin r)
      with (major * cos t * (cos r * cos r + sin r * sin r)) by ring.
    replace ((major * cos t * sin r + minor * sin t * cos r) * cos r
             - (major * cos t * cos r - minor * sin t * sin r) * sin r)
      with (minor * sin t * (cos r * cos r + sin r * sin r)) by ring.
    rewrite Hr.
    replace (minor * (major * cos t * 1) * (minor * (major * cos t * 1))
             + major * (minor * sin t * 1) * (major * (minor * sin t * 1)))
      with (major * minor * (major * minor) * (cos t * cos t + sin t * sin t))
      by ring.
    rewrite Ht. ring.
Qed.

Lemma samples_lie_on_the_ellipse_witness :
  exists P : LngLat,
    nth_error (createEllipseCoordinates 0 0 2 1 0 defaultNumPoints) 0 = Some P.
Proof.
  destruct (samples_lie_on_the_ellipse 0 0 2 1 0 defaultNumPoints 0)
    as (P & HP & _).
  - unfold defaultNumPoints. lia.
  - replace (0 * PI / 180) with 0 by field. rewrite cos_0. lra.
  - exists P. exact HP.
Defined.

(** X11.  When the minor axis is not longer than the major axis, no sampled
    position is farther from the centre than the major axis, in the metres of
    the component. *)
Theorem samples_stay_within_major_axis
    (centerLng centerLat major minor rotation : R) (numPoints i : nat) :
  (i <= numPoints)%nat ->
  cos (centerLat * PI / 180) <> 0 ->
  minor * minor <= major * major ->
  exists P : LngLat,
    nth_error (createEllipseCoordinates centerLng centerLat major minor
                 rotation numPoints) i = Some P
    /\ let east := (fst P - centerLng) * (111320 * cos (centerLat * PI / 180)) in
       let north := (snd P - centerLat) * 111320 in
       east * east + north * north <= major * major.
Proof.
  intros Hi Hc Hab. eexists. split.
  - now apply RealFireMapFacts.createEllipseCoordinates_nth.
  - cbv zeta.
    destruct (ellipsePoint_offsets centerLng centerLat major minor
                (rotation * PI / 180) numPoints i Hc) as [He Hn].
    cbv zeta in He, Hn. rewrite He, Hn.
    set (t := INR i / INR numPoints * 2 * PI).
    set (r := rotation * PI / 180).
    pose proof (sin_cos_one t) as Ht. pose proof (sin_cos_one r) as Hr.
    replace ((major * cos t * cos r - minor * sin t * sin r)
             * (major * cos t * cos r - minor * sin t * sin r)
             + (major * cos t * sin r + minor * sin t * cos r)
               * (major * cos t * sin r + minor * sin t * cos r))
      with ((major * major * (cos t * cos t) + minor * minor * (sin t * sin t))
            * (cos r * cos r + sin r * sin r)) by ring.
    rewrite Hr.
    assert (Hs : 0 <= sin t * sin t) by nra.
    replace (major * major) with (major * major * (cos t * cos t + sin t * sin t))
      at 2 by (rewrite Ht; ring).
    nra.
Qed.

Lemma samples_stay_within_major_axis_witness :
  exists P : LngLat,
    nth_error (createEllipseCoordinates 0 0 2 1 0 defaultNumPoints) 16 = Some P.
Proof.
  destruct (samples_stay_within_major_axis 0 0 2 1 0 defaultNumPoints 16)
    as (P & HP & _).
  - unfold defaultNumPoints. lia.
  - replace (0 * PI / 180) with 0 by field. rewrite cos_0. lra.
  - lra.
  - exists P. exact HP.
Defined.

(** X12.  The glow is the main polygon enlarged by 1.3 about the origin:
    sample by sample, the offset of the glow from the origin is 1.3 times the
    offset of the main polygon. *)
Theorem glow_is_main_polygon_scaled
    (p : RealFireMapProps) (s : MapState) (L : FireLayers) (i : nat) :
  updateFireLayers p s = Some L ->
  (i <= 64)%nat ->
  exists P G : LngLat,
    nth_error (ellipseCoords L) i = Some P
    /\ nth_error (outerGlowCoords L) i = Some G
    /\ fst G - longitude p = 1.3 * (fst P - longitude p)
    /\ snd G - latitude p = 1.3 * (snd P - latitude p).
Proof.
  intros HL Hi.
  apply RealFireMapFacts.updateFireLayers_Some in HL
    as (_ & _ & _ & _ & _ & _ & Hc & Hg).
  rewrite Hc, Hg. do 2 eexists.
  split; [apply RealFireMapFacts.createEllipseCoordinates_nth; exact Hi|].
  split; [apply RealFireMapFacts.createEllipseCoordinates_nth; exact Hi|].
  unfold ellipsePoint. simpl fst. simpl snd. unfold Rdiv. split; ring.
Qed.

Lemma glow_is_main_polygon_scaled_witness :
  exists L P G,
    updateFireLayers scenarioB animationDone = Some L
    /\ nth_error (ellipseCoords L) 0 = Some P
    /\ nth_error (outerGlowCoords L) 0 = Some G
    /\ fst G - longitude scenarioB = 1.3 * (fst P - longitude scenarioB).
Proof.
  destruct (glow_is_main_polygon_scaled scenarioB animationDone _ 0
              Logic.eq_refl) as (P & G & HP & HG & H1 & _).
  - lia.
  - eexists. exists P, G. split; [reflexivity|]. repeat split; assumption.
Defined.

End EllipseFacts.

(** ** Wind labels *)

Module WindLabelFacts.
Import RealFireMap.
Local Open Scope R_scope.

Lemma floor_bounds (x : R) :
  IZR (JsReal.floor x) <= x < IZR (JsReal.floor x) + 1.
Proof.
  unfold JsReal.floor, Int_part. destruct (archimed x) as [H1 H2].
  rewrite minus_IZR. simpl. lra.
Qed.

Lemma round_bounds (x : R) :
  IZR (JsReal.round x) - / 2 <= x < IZR (JsReal.round x) + / 2.
Proof. unfold JsReal.round. pose proof (floor_bounds (x + / 2)). lra. Qed.

Lemma round_shift (x : R) (n : Z) :
  JsReal.round (x + IZR n) = (JsReal.round x + n)%Z.
Proof.
  apply JsRealFacts.round_unique. rewrite plus_IZR.
  pose proof (round_bounds x). lra.
Qed.

Lemma rem_below_half_turn (d : R) :
  0 <= d < 180 -> JsReal.rem (d + 180) 360 = d + 180.
Proof.
  intros H. unfold JsReal.rem.
  rewrite (JsRealFacts.trunc_nonneg_unique _ 0%Z); lra.
Qed.

Lemma rem_above_half_turn (d : R) :
  180 <= d < 360 -> JsReal.rem (d + 180) 360 = d - 180.
Proof.
  intros H. unfold JsReal.rem.
  rewrite (JsRealFacts.trunc_nonneg_unique _ 1%Z); lra.
Qed.

Lemma getWindLabel_of_round (d : R) (k : Z) :
  JsReal.round (d / 45) = k ->
  getWindLabel d
  = if (Z.rem k 8 <? 0)%Z then None
    else nth_error directions (Z.to_nat (Z.rem k 8)).
Proof. intros <-. reflexivity. Qed.

(** X13.  For every direction from 0 up to 360 the label is one of the eight
    compass points, and the label of [(direction + 180) mod 360], which the
    legend shows after "from", is the opposite point, four places further
    round the compass. *)
Theorem wind_label_and_its_opposite (direction : R) :
  0 <= direction < 360 ->
  exists i : nat,
    (i < 8)%nat
    /\ getWindLabel direction = nth_error directions i
    /\ getWindLabel (JsReal.rem (direction + 180) 360)
       = nth_error directions ((i + 4) mod 8).
Proof.
  intros H.
  pose proof (round_bounds (direction / 45)) as Hk.
  set (k := JsReal.round (direction / 45)) in *.
  assert (Hk0 : (0 <= k <= 8)%Z).
  { split.
    - apply le_IZR. apply Rnot_lt_le. intros C.
      assert (IZR k <= -1) by (apply IZR_le; apply lt_IZR in C; lia). lra.
    - apply Z.lt_succ_r. apply lt_IZR. rewrite succ_IZR. lra. }
  destruct (Rlt_dec direction 180) as [Hlow | Hhigh].
  - rewrite rem_below_half_turn by lra.
    assert (Hk4 : (k <= 4)%Z).
    { apply Z.lt_succ_r. apply lt_IZR. rewrite succ_IZR. lra. }
    assert (Hr : JsReal.round ((direction + 180) / 45) = (k + 4)%Z).
    { replace ((direction + 180) / 45) with (direction / 45 + IZR 4)
        by (simpl; field).
      apply round_shift. }
    rewrite (getWindLabel_of_round direction k Logic.eq_refl).
    rewrite (getWindLabel_of_round _ _ Hr).
    assert (C : k = 0%Z \/ k = 1%Z \/ k = 2%Z \/ k = 3%Z \/ k = 4%Z) by lia.
    destruct C as [-> | [-> | [-> | [-> | ->]]]];
      [exists 0%nat | exists 1%nat | exists 2%nat | exists 3%nat
       | exists 4%nat]; repeat split; lia.
  - rewrite rem_above_half_turn by lra.
    assert (Hk4 : (4 <= k)%Z).
    { apply le_IZR. apply Rnot_lt_le. intros C.
      assert (IZR k <= 3) by (apply IZR_le; apply lt_IZR in C; lia). lra. }
    assert (Hr : JsReal.round ((direction - 180) / 45) = (k + -4)%Z).
    { replace ((direction - 180) / 45) with (direction / 45 + IZR (-4))
        by (simpl; field).
      apply round_shift. }
    rewrite (getWindLabel_of_round direction k Logic.eq_refl).
    rewrite (getWindLabel_of_round _ _ Hr).
    assert (C : k = 4%Z \/ k = 5%Z \/ k = 6%Z \/ k = 7%Z \/ k = 8%Z) by lia.
    destruct C as [-> | [-> | [-> | [-> | ->]]]];
      [exists 4%nat | exists 5%nat | exists 6%nat | exists 7%nat
       | exists 0%nat]; repeat split; lia.
Qed.

Lemma wind_label_and_its_opposite_witness :
  exists i : nat,
    (i < 8)%nat
    /\ getWindLabel 245 = nth_error directions i
    /\ getWindLabel (JsReal.rem (245 + 180) 360)
       = nth_error directions ((i + 4) mod 8).
Proof. apply (wind_label_and_its_opposite 245). lra. Defined.

End WindLabelFacts.

(** ** The circle map *)

Module PopulationFireMapFacts.
Import PopulationFireMap.
Local Open Scope R_scope.


(** The effect draws exactly when the map is there and loaded. *)
Lemma updateFireVisualization_drawn (p : PopulationFireMapProps)
    (s : MapState) (V : FireVisualization) :
  updateFireVisualization p s = Some V ->
  mapCurrent s = true /\ mapLoaded s = true
  /\ updateFireVisualization p mapReady = Some V.
Proof.
  unfold updateFireVisualization. intros H.
  destruct (mapCurrent s), (mapLoaded s); try discriminate H.
  repeat split. exact H.
Qed.

Lemma wind_line_components (p : PopulationFireMapProps) (s : MapState)
    (V : FireVisualization) :
  updateFireVisualization p s = Some V ->
  0 < windSpeed p ->
  cos (latitude p * PI / 180) <> 0 ->
  exists windEnd : LatLng,
    windLine V = Some ((latitude p, longitude p), windEnd)
    /\ (fst windEnd - latitude p) * 111
       = radiusKm p * cos (windDirection p * PI / 180)
    /\ (snd windEnd - longitude p) * (111 * cos (latitude p * PI / 180))
       = radiusKm p * sin (windDirection p * PI / 180).
Proof.
  intros HV Hw Hc.
  apply updateFireVisualization_drawn in HV. destruct HV as (_ & _ & HV).
  unfold updateFireVisualization in HV. cbn [mapReady mapCurrent mapLoaded
    negb orb] in HV. injection HV as <-. cbn [windLine].
  destruct (Rlt_dec 0 (windSpeed p)) as [_|C]; [|contradiction].
  eexists. split; [reflexivity|]. simpl fst. simpl snd.
  split; field; exact Hc.
Qed.

Lemma equatorFire_cos : cos (latitude equatorFire * PI / 180) <> 0.
Proof.
  simpl. replace (0 * PI / 180) with 0 by field. rewrite cos_0. lra.
Qed.



(** X15.  The two maps read the same wind direction differently.  When both
    have drawn, the wind line of the circle map leaves the origin with
    components (east, north) proportional to (sin, cos) of the direction; on
    the ellipse map the end of the major axis lies at (east, north)
    proportional to (cos, sin): east and north are exchanged, so direction 0
    is north on one map and east on the other. *)
Theorem maps_exchange_east_and_north
    (p : PopulationFireMapProps) (circleMap : MapState)
    (V : FireVisualization) (s : RealFireMap.MapState)
    (L : RealFireMap.FireLayers) :
  0 < windSpeed p ->
  cos (latitude p * PI / 180) <> 0 ->
  updateFireVisualization p circleMap = Some V ->
  RealFireMap.updateFireLayers (asRealFireMapProps p) s = Some L ->
  exists (windEnd : LatLng) (vertex : RealFireMap.LngLat),
    windLine V = Some ((latitude p, longitude p), windEnd)
    /\ nth_error (RealFireMap.ellipseCoords L) 0 = Some vertex
    /\ let t := windDirection p * PI / 180 in
       let lineNorth := (fst windEnd - latitude p) * 111 in
       let lineEast :=
         (snd windEnd - longitude p) * (111 * cos (latitude p * PI / 180)) in
       let vertexEast :=
         (fst vertex - longitude p)
         * (111320 * cos (latitude p * PI / 180)) in
       let vertexNorth := (snd vertex - latitude p) * 111320 in
       lineEast = radiusKm p * sin t
       /\ lineNorth = radiusKm p * cos t
       /\ vertexEast = RealFireMap.majorAxis L * cos t
       /\ vertexNorth = RealFireMap.majorAxis L * sin t.
Proof.
  intros Hw Hc HV HL.
  destruct (wind_line_components p circleMap V HV Hw Hc)
    as (windEnd & Hline & Hn & He).
  pose proof (RealFireMapFacts.major_axis_vertex _ _ _ HL) as Hv.
  pose proof (RealFireMapFacts.updateFireLayers_Some _ _ _ HL)
    as (_ & _ & _ & Hrot & _).
  simpl in Hv, Hrot. rewrite Hrot in Hv.
  exists windEnd. eexists. split; [exact Hline|]. split; [exact Hv|].
  cbv zeta. simpl fst. simpl snd.
  split; [exact He|]. split; [exact Hn|].
  split; field; exact Hc.
Qed.

Lemma maps_exchange_east_and_north_witness :
  exists (V : FireVisualization) (L : RealFireMap.FireLayers)
         (windEnd : LatLng) (vertex : RealFireMap.LngLat),
    updateFireVisualization equatorFire mapReady = Some V
    /\ RealFireMap.updateFireLayers (asRealFireMapProps equatorFire)
         RealFireMap.animationDone = Some L
    /\ windLine V = Some ((latitude equatorFire, longitude equatorFire),
                          windEnd)
    /\ nth_error (RealFireMap.ellipseCoords L) 0 = Some vertex.
Proof.
  destruct (updateFireVisualization equatorFire mapReady) as [V|] eqn:EV;
    [|discriminate EV].
  destruct (RealFireMap.updateFireLayers (asRealFireMapProps equatorFire)
              RealFireMap.animationDone) as [L|] eqn:EL; [|discriminate EL].
  destruct (maps_exchange_east_and_north equatorFire mapReady V
              RealFireMap.animationDone L)
    as (e & v & He & Hv & _).
  - simpl. lra.
  - exact equatorFire_cos.
  - exact EV.
  - exact EL.
  - exists V, L, e, v. repeat split; assumption.
Defined.

End PopulationFireMapFacts.

(** ** Radius conversions and the viewer properties *)

Module PredictionResultsFacts.
Import PredictionResults.
Local Open Scope R_scope.

(** X16.  [acresToRadius] inverts the area of a disc: for a non-negative
    area, the disc of the returned radius, taken back to feet, has exactly
    that many acres at 43560 square feet each. *)
Theorem acresToRadius_inverts_disc_area (acres : R) :
  0 <= acres ->
  let radiusFeet := RealFireMap.acresToRadius acres / 0.3048 in
  PI * (radiusFeet * radiusFeet) = acres * 43560.
Proof.
  intros H. cbv zeta. unfold RealFireMap.acresToRadius.
  assert (Hp : 0 < PI) by apply PI_RGT_0.
  assert (Hx : 0 <= acres * 43560 / PI).
  { apply Rmult_le_pos; [lra|]. left. now apply Rinv_0_lt_compat. }
  replace (sqrt (acres * 43560 / PI) * 0.3048 / 0.3048)
    with (sqrt (acres * 43560 / PI)) by (field; lra).
  rewrite sqrt_sqrt by exact Hx. field. lra.
Qed.

Lemma acresToRadius_inverts_disc_area_witness :
  PI * (RealFireMap.acresToRadius 100 / 0.3048
        * (RealFireMap.acresToRadius 100 / 0.3048)) = 100 * 43560.
Proof. apply (acresToRadius_inverts_disc_area 100). lra. Defined.

Lemma acresToRadius_as_sqrt (acres : R) :
  0 <= acres ->
  RealFireMap.acresToRadius acres = sqrt (acres * 4046.8564224 / PI).
Proof.
  intros H. unfold RealFireMap.acresToRadius.
  assert (Hp : 0 < PI) by apply PI_RGT_0.
  assert (Hx : 0 <= acres * 43560 / PI).
  { apply Rmult_le_pos; [lra|]. left. now apply Rinv_0_lt_compat. }
  cbv zeta.
  replace (sqrt (acres * 43560 / PI) * 0.3048)
    with (sqrt (acres * 43560 / PI) * sqrt (0.3048 * 0.3048))
    by (rewrite (sqrt_square 0.3048) by lra; reflexivity).
  rewrite <- sqrt_mult; [| exact Hx | nra].
  apply f_equal. unfold Rdiv. lra.
Qed.

Lemma acresToKm_as_sqrt (acres k : R) :
  0 <= acres -> 0 <= k ->
  k * acresToKm acres = sqrt (acres * 0.00404686 * (k * k) / PI).
Proof.
  intros H Hk. unfold acresToKm.
  assert (Hp : 0 < PI) by apply PI_RGT_0.
  assert (Hx : 0 <= acres * 0.00404686 / PI).
  { apply Rmult_le_pos; [lra|]. left. now apply Rinv_0_lt_compat. }
  cbv zeta.
  replace (k * sqrt (acres * 0.00404686 / PI))
    with (sqrt (acres * 0.00404686 / PI) * sqrt (k * k))
    by (rewrite (sqrt_square k) by exact Hk; ring).
  rewrite <- sqrt_mult; [| exact Hx | nra].
  apply f_equal. unfold Rdiv. lra.
Qed.

(** X17.  The two radius conversions agree to one part in a million: for a
    non-negative area the radius in metres of [acresToRadius] is at most 1000
    times the radius in kilometres of [acresToKm], and not smaller by more
    than a millionth. *)
Theorem radius_conversions_agree (acres : R) :
  0 <= acres ->
  RealFireMap.acresToRadius acres <= 1000 * acresToKm acres
  /\ 1000 * acresToKm acres <= RealFireMap.acresToRadius acres * 1.000001.
Proof.
  intros H.
  assert (Hp : 0 < PI) by apply PI_RGT_0.
  assert (Hi : 0 < / PI) by now apply Rinv_0_lt_compat.
  split.
  - rewrite acresToRadius_as_sqrt, acresToKm_as_sqrt by lra.
    apply sqrt_le_1_alt. unfold Rdiv.
    apply Rmult_le_compat_r; [lra | nra].
  - replace (RealFireMap.acresToRadius acres * 1.000001)
      with (1.000001 * RealFireMap.acresToRadius acres) by ring.
    rewrite acresToRadius_as_sqrt by lra.
    rewrite acresToKm_as_sqrt by lra.
    replace (1.000001 * sqrt (acres * 4046.8564224 / PI))
      with (sqrt (acres * 4046.8564224 / PI) * sqrt (1.000001 * 1.000001))
      by (rewrite (sqrt_square 1.000001) by lra; ring).
    rewrite <- sqrt_mult;
      [| unfold Rdiv; apply Rmult_le_pos; [nra | lra] | nra].
    apply sqrt_le_1_alt.
    replace (acres * 4046.8564224 / PI * (1.000001 * 1.000001))
      with (acres * 4046.8564224 * (1.000001 * 1.000001) * / PI)
      by (unfold Rdiv; ring).
    unfold Rdiv. apply Rmult_le_compat_r; [lra | nra].
Qed.

Lemma radius_conversions_agree_witness :
  RealFireMap.acresToRadius 100 <= 1000 * acresToKm 100.
Proof. apply (radius_conversions_agree 100). lra. Defined.

Lemma acresToKm_nonneg (acres : R) : 0 <= acresToKm acres.
Proof. unfold acresToKm. apply sqrt_pos. Qed.

Lemma acresToKmOrNaN_nonneg (acres : R) :
  0 <= acres -> acresToKmOrNaN acres = Some (acresToKm acres).
Proof.
  intros H. unfold acresToKmOrNaN, acresToKm, Math_sqrt. cbv zeta.
  assert (Hp : 0 < / PI) by (apply Rinv_0_lt_compat, PI_RGT_0).
  destruct (Rlt_dec (acres * 0.00404686 / PI) 0) as [C|_]; [|reflexivity].
  exfalso. unfold Rdiv in C. nra.
Qed.

Lemma acresToKmOrNaN_negative (acres : R) :
  acres < 0 -> acresToKmOrNaN acres = None.
Proof.
  intros H. unfold acresToKmOrNaN, Math_sqrt. cbv zeta.
  assert (Hp : 0 < / PI) by (apply Rinv_0_lt_compat, PI_RGT_0).
  destruct (Rlt_dec (acres * 0.00404686 / PI) 0) as [_|C]; [reflexivity|].
  exfalso. apply C. unfold Rdiv. nra.
Qed.

(** X18.  For a predicted area that is not negative, the radius handed to the
    map viewer is a number that is never below 1 km: a fire whose area in
    square kilometres is at most pi (about 776 acres) is drawn with radius
    exactly 1, a larger one with the radius of its disc.  For a negative area
    the radius is NaN, and the lower bound of 1 does not apply. *)
Theorem viewer_radius_is_at_least_1 (prediction : Api.PredictionResponse)
    (inputs : Api.PredictionRequest) :
  let acres := Q2R (Api.predicted_acres prediction) in
  let props := viewerProps prediction inputs in
  (0 <= acres ->
     exists r : R,
       radiusKm props = Some r
       /\ 1 <= r
       /\ (acres * 0.00404686 <= PI -> r = 1)
       /\ (PI <= acres * 0.00404686 -> r = acresToKm acres))
  /\ (acres < 0 -> radiusKm props = None).
Proof.
  cbv zeta. unfold viewerProps. simpl radiusKm.
  assert (Hp : 0 < PI) by apply PI_RGT_0.
  split.
  - intros H0. rewrite acresToKmOrNaN_nonneg by exact H0.
    eexists. split; [reflexivity|].
    split; [apply Rmax_l|]. split.
    + intros H. apply Rmax_left. unfold acresToKm.
      rewrite <- sqrt_1. apply sqrt_le_1_alt.
      apply (Rmult_le_reg_r PI); [exact Hp|]. unfold Rdiv.
      rewrite Rmult_assoc, Rinv_l by lra. lra.
    + intros H. apply Rmax_right. unfold acresToKm.
      rewrite <- sqrt_1 at 1. apply sqrt_le_1_alt.
      apply (Rmult_le_reg_r PI); [exact Hp|]. unfold Rdiv.
      rewrite Rmult_assoc, Rinv_l by lra. lra.
  - intros H. now rewrite acresToKmOrNaN_negative.
Qed.

Lemma orElse_never_zero (x : option Q) (fallback : Q) :
  ~ (fallback == 0)%Q -> ~ (orElse x fallback == 0)%Q.
Proof.
  intros Hf. unfold orElse. destruct x as [v|]; [|exact Hf].
  destruct (Qeq_bool v 0) eqn:E; [exact Hf|].
  now apply Qeq_bool_neq.
Qed.

(** X19.  The wind speed handed to the map viewer is never 0: a wind speed
    that is missing or 0 in the inputs is replaced by 10, any other value is
    passed on as it is. *)
Theorem viewer_wind_speed_is_never_zero (prediction : Api.PredictionResponse)
    (inputs : Api.PredictionRequest) :
  let props := viewerProps prediction inputs in
  ~ (windSpeed props == 0)%Q
  /\ (Api.wind_speed inputs = None -> windSpeed props = 10%Q)
  /\ (forall w, Api.wind_speed inputs = Some w ->
        ((w == 0)%Q -> windSpeed props = 10%Q)
        /\ (~ (w == 0)%Q -> windSpeed props = w)).
Proof.
  cbv zeta. unfold viewerProps. simpl windSpeed.
  split; [apply orElse_never_zero; discriminate|]. split.
  - intros ->. reflexivity.
  - intros w ->. unfold orElse. split; intros H.
    + apply Qeq_bool_iff in H. now rewrite H.
    + destruct (Qeq_bool w 0) eqn:E; [|reflexivity].
      apply Qeq_bool_iff in E. contradiction.
Qed.

End PredictionResultsFacts.

(** ** Risk bands: the demo prediction, the gauge and the response plan *)

Module RiskBandFacts.
Import Api Lqa.
Local Open Scope Q_scope.

Lemma ltb_lt (a b : Q) : ltb a b = true <-> a < b.
Proof.
  unfold ltb. rewrite negb_true_iff. split.
  - intros H. apply Qnot_le_lt. intros C.
    apply Qle_bool_iff in C. congruence.
  - intros H. destruct (Qle_bool b a) eqn:E; [|reflexivity].
    apply Qle_bool_iff in E. lra.
Qed.

Lemma ltb_ge (a b : Q) : ltb a b = false <-> b <= a.
Proof.
  unfold ltb. rewrite negb_false_iff. apply Qle_bool_iff.
Qed.

Lemma ltb_compat (a a' b : Q) : a == a' -> ltb a b = ltb a' b.
Proof.
  intros H. destruct (ltb a' b) eqn:E.
  - apply ltb_lt. apply ltb_lt in E. lra.
  - apply ltb_ge. apply ltb_ge in E. lra.
Qed.

(** Against a whole number, the rounded value compares as the value plus one
    half. *)
Lemma round_ltb (x : Q) (t : Z) :
  ltb (round x) (inject_Z t) = ltb (x + (1 # 2)) (inject_Z t).
Proof.
  unfold round.
  pose proof (Qfloor_le (x + (1 # 2))) as Hlo.
  pose proof (Qlt_floor (x + (1 # 2))) as Hhi.
  destruct (ltb (x + (1 # 2)) (inject_Z t)) eqn:E.
  - apply ltb_lt. apply ltb_lt in E. lra.
  - apply ltb_ge. apply ltb_ge in E.
    rewrite <- Zle_Qle. apply Z.lt_succ_r. rewrite Zlt_Qlt.
    replace (Z.succ (Qfloor (x + (1 # 2)))) with (Qfloor (x + (1 # 2)) + 1)%Z
      by lia.
    lra.
Qed.

Lemma getRiskDetails_round (s : Q) :
  getRiskDetails (round s) = getRiskDetails (s + (1 # 2)).
Proof.
  unfold getRiskDetails.
  change 20 with (inject_Z 20). change 40 with (inject_Z 40).
  change 60 with (inject_Z 60). change 80 with (inject_Z 80).
  now rewrite !round_ltb.
Qed.

Lemma getRiskDetails_compat (a b : Q) :
  a == b -> getRiskDetails a = getRiskDetails b.
Proof.
  intros H. unfold getRiskDetails.
  now rewrite !(ltb_compat a b) by exact H.
Qed.

(** The five categories [getRiskDetails] gives out. *)
Lemma category_cases (score : Q) :
  (score < 20 /\ category (getRiskDetails score) = "Very Low"%string)
  \/ (20 <= score < 40 /\ category (getRiskDetails score) = "Low"%string)
  \/ (40 <= score < 60
      /\ category (getRiskDetails score) = "Moderate"%string)
  \/ (60 <= score < 80 /\ category (getRiskDetails score) = "High"%string)
  \/ (80 <= score /\ category (getRiskDetails score) = "Critical"%string).
Proof.
  unfold getRiskDetails.
  destruct (ltb score 20) eqn:E1;
    [apply ltb_lt in E1; left; split; [lra | reflexivity]|].
  destruct (ltb score 40) eqn:E2;
    [apply ltb_lt in E2; apply ltb_ge in E1; right; left;
     split; [lra | reflexivity]|].
  destruct (ltb score 60) eqn:E3;
    [apply ltb_lt in E3; apply ltb_ge in E2; right; right; left;
     split; [lra | reflexivity]|].
  destruct (ltb score 80) eqn:E4;
    [apply ltb_lt in E4; apply ltb_ge in E3; right; right; right; left;
     split; [lra | reflexivity]|].
  apply ltb_ge in E4. right; right; right; right. split; [lra | reflexivity].
Qed.

Lemma stroke_is_category_colour (score : Q) :
  RiskGauge.stroke (RiskGauge.getColor score)
  = ApiHelpers.getRiskCategoryColor (category (getRiskDetails score)).
Proof.
  unfold RiskGauge.getColor, getRiskDetails.
  destruct (ltb score 20); [reflexivity|].
  destruct (ltb score 40); [reflexivity|].
  destruct (ltb score 60); [reflexivity|].
  destruct (ltb score 80); reflexivity.
Qed.

(** X20.  For one and the same score the gauge and the category agree: the
    stroke colour of the gauge is the colour [getRiskCategoryColor] gives to
    the category [getRiskDetails] assigns, and the gauge is in its critical
    state exactly when that category is Critical. *)
Theorem gauge_colour_is_category_colour (score : Q) :
  RiskGauge.stroke (RiskGauge.getColor score)
  = ApiHelpers.getRiskCategoryColor (category (getRiskDetails score))
  /\ (RiskGauge.isCritical score = true
      <-> category (getRiskDetails score) = "Critical"%string).
Proof.
  split; [apply stroke_is_category_colour|].
  unfold RiskGauge.isCritical. rewrite Qle_bool_iff.
  destruct (category_cases score) as [C | [C | [C | [C | C]]]];
    destruct C as [Hb ->]; split; intros H;
    try discriminate; try reflexivity; try lra.
Qed.

(** X21.  The risk score of a demo prediction is a whole number from 0 to
    100. *)
Theorem mock_risk_score_is_whole_and_bounded
    (data : PredictionRequest) (random : Q) :
  exists z : Z,
    risk_score (generateMockPrediction data random) = inject_Z z
    /\ (0 <= z <= 100)%Z.
Proof.
  exists (Qfloor (mockRiskScore data + (1 # 2))). split; [reflexivity|].
  assert (H : 0 <= mockRiskScore data <= 100).
  { unfold mockRiskScore. cbv zeta.
    match goal with |- _ <= Qmax 0 (Qmin 100 ?x) <= _ => set (raw := x) end.
    split; [apply Q.le_max_l|].
    apply Q.max_lub; [discriminate | apply Q.le_min_l]. }
  split.
  - change 0%Z with (Qfloor 0). apply Qfloor_resp_le. lra.
  - change 100%Z with (Qfloor (100 + (1 # 2))). apply Qfloor_resp_le. lra.
Qed.

(** X22.  The displayed risk score of a demo prediction is rounded after the
    category has been chosen: the category is that of the exact score, while
    the gauge colours the rounded score, which falls in the band of the exact
    score plus one half.  The two agree unless the exact score lies within one
    half below 20, 40, 60 or 80; there the gauge shows the colour of the next
    band. *)
Theorem rounded_score_may_enter_next_band
    (data : PredictionRequest) (random : Q) :
  let exact := mockRiskScore data in
  let shown := generateMockPrediction data random in
  risk_category shown = category (getRiskDetails exact)
  /\ RiskGauge.stroke (RiskGauge.getColor (risk_score shown))
     = ApiHelpers.getRiskCategoryColor
         (category (getRiskDetails (exact + (1 # 2))))
  /\ ((forall t, In t [20; 40; 60; 80] -> exact < t - (1 # 2) \/ t <= exact) ->
      RiskGauge.stroke (RiskGauge.getColor (risk_score shown))
      = ApiHelpers.getRiskCategoryColor (risk_category shown))
  /\ (forall t, In t [20; 40; 60; 80] -> t - (1 # 2) <= exact < t ->
      RiskGauge.stroke (RiskGauge.getColor (risk_score shown))
      <> ApiHelpers.getRiskCategoryColor (risk_category shown)).
Proof.
  cbv zeta. set (exact := mockRiskScore data).
  assert (Hshown : RiskGauge.stroke
                     (RiskGauge.getColor
                        (risk_score (generateMockPrediction data random)))
                   = ApiHelpers.getRiskCategoryColor
                       (category (getRiskDetails (exact + (1 # 2))))).
  { change (risk_score (generateMockPrediction data random))
      with (round exact).
    rewrite <- getRiskDetails_round.
    apply stroke_is_category_colour. }
  split; [reflexivity|]. split; [exact Hshown|]. split.
  - intros Hfar. rewrite Hshown.
    change (risk_category (generateMockPrediction data random))
      with (category (getRiskDetails exact)).
    f_equal. f_equal. unfold getRiskDetails.
    assert (L : forall t, In t [20; 40; 60; 80] ->
                 ltb (exact + (1 # 2)) t = ltb exact t).
    { intros t Ht. destruct (Hfar t Ht) as [H | H].
      - transitivity true; [|symmetry]; apply ltb_lt; lra.
      - transitivity false; [|symmetry]; apply ltb_ge; lra. }
    rewrite !L by (simpl; tauto). reflexivity.
  - intros t Ht Hnear. rewrite Hshown.
    change (risk_category (generateMockPrediction data random))
      with (category (getRiskDetails exact)).
    destruct (category_cases exact) as [C | [C | [C | [C | C]]]];
      destruct C as [Hb ->];
      destruct (category_cases (exact + (1 # 2)))
        as [D | [D | [D | [D | D]]]];
      destruct D as [Hd ->];
      simpl in Ht; destruct Ht as [<- | [<- | [<- | [<- | []]]]];
      try discriminate; exfalso; lra.
Qed.

(** X23.  No demo prediction puts the response plan in its critical state:
    the plan looks for the categories "Critical Risk" and "High Risk", and the
    demo prediction names its categories without "Risk". *)
Theorem response_plan_never_critical_for_mock
    (data : PredictionRequest) (random : Q) :
  RecommendationsPanel.isCritical (generateMockPrediction data random) = false
  /\ In (risk_category (generateMockPrediction data random))
        ["Very Low"; "Low"; "Moderate"; "High"; "Critical"]%string.
Proof.
  unfold RecommendationsPanel.isCritical.
  change (risk_category (generateMockPrediction data random))
    with (category (getRiskDetails (mockRiskScore data))).
  destruct (category_cases (mockRiskScore data))
    as [C | [C | [C | [C | C]]]]; destruct C as [_ ->];
    split; try reflexivity; simpl; tauto.
Qed.

End RiskBandFacts.

(** ** The demo prediction: acres and seasons *)

Module MockPredictionFacts.
Import Api Lqa.
Local Open Scope Q_scope.

Lemma Qfloor_half (n : Z) : Qfloor (inject_Z n + (1 # 2)) = n.
Proof.
  pose proof (Qfloor_le (inject_Z n + (1 # 2))) as Hlo.
  pose proof (Qlt_floor (inject_Z n + (1 # 2))) as Hhi.
  set (f := Qfloor (inject_Z n + (1 # 2))) in *.
  rewrite inject_Z_plus in Hhi. change (inject_Z 1) with 1 in Hhi.
  assert (H1 : (f < n + 1)%Z).
  { rewrite Zlt_Qlt, inject_Z_plus. change (inject_Z 1) with 1. lra. }
  assert (H2 : (n < f + 1)%Z).
  { rewrite Zlt_Qlt, inject_Z_plus. change (inject_Z 1) with 1. lra. }
  lia.
Qed.

(** Rounding to one decimal keeps a value between two whole bounds. *)
Lemma round_tenths_between (x : Q) (lo hi : Z) :
  inject_Z lo <= x <= inject_Z hi ->
  inject_Z lo <= round (x * 10) / 10 <= inject_Z hi.
Proof.
  intros [Hlo Hhi]. unfold round.
  set (k := Qfloor (x * 10 + (1 # 2))).
  assert (Hk1 : (lo * 10 <= k)%Z).
  { rewrite <- (Qfloor_Z (lo * 10)). apply Qfloor_resp_le.
    rewrite inject_Z_mult. change (inject_Z 10) with 10. lra. }
  assert (Hk2 : (k <= hi * 10)%Z).
  { rewrite <- (Qfloor_half (hi * 10)). apply Qfloor_resp_le.
    rewrite inject_Z_mult. change (inject_Z 10) with 10. lra. }
  rewrite Zle_Qle, inject_Z_mult in Hk1, Hk2.
  change (inject_Z 10) with 10 in Hk1, Hk2.
  split.
  - apply Qle_shift_div_l; [reflexivity | lra].
  - apply Qle_shift_div_r; [reflexivity | lra].
Qed.

Lemma mockPredictedAcres_band (score random : Q) :
  0 <= random < 1 ->
  (score < 20 -> 0 <= mockPredictedAcres score random <= 10)
  /\ (20 <= score < 40 -> 10 <= mockPredictedAcres score random <= 100)
  /\ (40 <= score < 60 -> 100 <= mockPredictedAcres score random <= 1000)
  /\ (60 <= score < 80 -> 1000 <= mockPredictedAcres score random <= 10000)
  /\ (80 <= score -> 10000 <= mockPredictedAcres score random <= 50000).
Proof.
  intros Hr. unfold mockPredictedAcres.
  destruct (ltb score 20) eqn:E1;
    [apply RiskBandFacts.ltb_lt in E1 | apply RiskBandFacts.ltb_ge in E1];
  destruct (ltb score 40) eqn:E2;
    [apply RiskBandFacts.ltb_lt in E2 | apply RiskBandFacts.ltb_ge in E2
     | apply RiskBandFacts.ltb_lt in E2 | apply RiskBandFacts.ltb_ge in E2];
  destruct (ltb score 60) eqn:E3;
    try apply RiskBandFacts.ltb_lt in E3;
    try apply RiskBandFacts.ltb_ge in E3;
  destruct (ltb score 80) eqn:E4;
    try apply RiskBandFacts.ltb_lt in E4;
    try apply RiskBandFacts.ltb_ge in E4;
  repeat split; intros; lra.
Qed.

(** X24.  The acres of a demo prediction lie in the band of its category, for
    every value the random draw can take: Very Low 0 to 10, Low 10 to 100,
    Moderate 100 to 1000, High 1000 to 10000, Critical 10000 to 50000; rounding
    to one decimal does not leave the band. *)
Theorem mock_acres_follow_category
    (data : PredictionRequest) (random : Q) :
  0 <= random < 1 ->
  let shown := generateMockPrediction data random in
  let acres := predicted_acres shown in
  (risk_category shown = "Very Low"%string -> 0 <= acres <= 10)
  /\ (risk_category shown = "Low"%string -> 10 <= acres <= 100)
  /\ (risk_category shown = "Moderate"%string -> 100 <= acres <= 1000)
  /\ (risk_category shown = "High"%string -> 1000 <= acres <= 10000)
  /\ (risk_category shown = "Critical"%string -> 10000 <= acres <= 50000)
  /\ 0 <= acres <= 50000.
Proof.
  intros Hr. cbv zeta.
  change (predicted_acres (generateMockPrediction data random))
    with (round (mockPredictedAcres (mockRiskScore data) random * 10) / 10).
  change (risk_category (generateMockPrediction data random))
    with (category (getRiskDetails (mockRiskScore data))).
  destruct (mockPredictedAcres_band (mockRiskScore data) random Hr)
    as (B1 & B2 & B3 & B4 & B5).
  destruct (RiskBandFacts.category_cases (mockRiskScore data))
    as [C | [C | [C | [C | C]]]]; destruct C as [Hb ->].
  - pose proof (round_tenths_between _ 0 10 (B1 Hb)) as H.
    unfold inject_Z in H.
    repeat split; try discriminate; intros; lra.
  - pose proof (round_tenths_between _ 10 100 (B2 Hb)) as H.
    unfold inject_Z in H.
    repeat split; try discriminate; intros; lra.
  - pose proof (round_tenths_between _ 100 1000 (B3 Hb)) as H.
    unfold inject_Z in H.
    repeat split; try discriminate; intros; lra.
  - pose proof (round_tenths_between _ 1000 10000 (B4 Hb)) as H.
    unfold inject_Z in H.
    repeat split; try discriminate; intros; lra.
  - pose proof (round_tenths_between _ 10000 50000 (B5 Hb)) as H.
    unfold inject_Z in H.
    repeat split; try discriminate; intros; lra.
Qed.

Lemma mock_acres_follow_category_witness :
  0 <= predicted_acres (generateMockPrediction lightningFire (1 # 2))
    <= 50000.
Proof.
  refine (proj2 (proj2 (proj2 (proj2 (proj2
    (mock_acres_follow_category lightningFire (1 # 2) _)))))).
  split; [discriminate | reflexivity].
Defined.

Lemma mockRiskScore_at_least_50 (data : PredictionRequest) :
  min_temp data <= max_temp data ->
  (forall w, wind_speed data = Some w -> 0 <= w) ->
  50 <= mockRiskScore data.
Proof.
  intros Ht Hw. unfold mockRiskScore. cbv zeta.
  set (a := Qmin ((max_temp data - min_temp data) * 0.5) 15).
  set (b := Qmax 0 ((max_temp data - 30) * 2)).
  assert (Ha : 0 <= a) by (apply Q.min_glb; lra).
  assert (Hb : 0 <= b) by apply Q.le_max_l.
  destruct (wind_speed data) as [w|] eqn:Ew.
  - specialize (Hw w Logic.eq_refl).
    set (c := Qmin (w * 0.8) 20).
    assert (Hc : 0 <= c) by (apply Q.min_glb; lra).
    destruct (Qeq_bool w 0);
      destruct (String.eqb (season data) "Summer");
      destruct (String.eqb (season data) "Fall");
      destruct (String.eqb (cause data) "Arson");
      destruct (String.eqb (cause data) "Lightning");
      (eapply Qle_trans; [|apply Q.le_max_r]); apply Q.min_glb; lra.
  - destruct (String.eqb (season data) "Summer");
      destruct (String.eqb (season data) "Fall");
      destruct (String.eqb (cause data) "Arson");
      destruct (String.eqb (cause data) "Lightning");
      (eapply Qle_trans; [|apply Q.le_max_r]); apply Q.min_glb; lra.
Qed.

(** X25.  With temperatures in order (minimum not above maximum) and a wind
    speed that is not negative, the demo prediction never scores below 50: its
    category is Moderate, High or Critical, and it predicts at least 100
    acres. *)
Theorem mock_never_below_moderate
    (data : PredictionRequest) (random : Q) :
  min_temp data <= max_temp data ->
  (forall w, wind_speed data = Some w -> 0 <= w) ->
  0 <= random < 1 ->
  let shown := generateMockPrediction data random in
  50 <= risk_score shown
  /\ In (risk_category shown) ["Moderate"; "High"; "Critical"]%string
  /\ 100 <= predicted_acres shown.
Proof.
  intros Ht Hw Hr. cbv zeta.
  pose proof (mockRiskScore_at_least_50 data Ht Hw) as H50.
  change (predicted_acres (generateMockPrediction data random))
    with (round (mockPredictedAcres (mockRiskScore data) random * 10) / 10).
  change (risk_category (generateMockPrediction data random))
    with (category (getRiskDetails (mockRiskScore data))).
  change (risk_score (generateMockPrediction data random))
    with (round (mockRiskScore data)).
  split.
  - unfold round. change 50 with (inject_Z 50). rewrite <- Zle_Qle.
    rewrite <- (Qfloor_Z 50). apply Qfloor_resp_le. unfold inject_Z. lra.
  - destruct (mockPredictedAcres_band (mockRiskScore data) random Hr)
      as (_ & _ & B3 & B4 & B5).
    destruct (RiskBandFacts.category_cases (mockRiskScore data))
      as [C | [C | [C | [C | C]]]]; destruct C as [Hb ->];
      try (exfalso; lra).
    + pose proof (round_tenths_between _ 100 1000 (B3 Hb)) as H.
      unfold inject_Z in H. split; [simpl; tauto | lra].
    + pose proof (round_tenths_between _ 1000 10000 (B4 Hb)) as H.
      unfold inject_Z in H. split; [simpl; tauto | lra].
    + pose proof (round_tenths_between _ 10000 50000 (B5 Hb)) as H.
      unfold inject_Z in H. split; [simpl; tauto | lra].
Qed.

Lemma mock_never_below_moderate_witness :
  100 <= predicted_acres (generateMockPrediction lightningFire (1 # 2)).
Proof.
  refine (proj2 (proj2
    (mock_never_below_moderate lightningFire (1 # 2) _ _ _))).
  - discriminate.
  - intros w [= <-]. discriminate.
  - split; [discriminate | reflexivity].
Defined.

(** A request that scores 59.5: Moderate by category, 60 on the gauge. *)
Example score_just_below_a_band :
  let data :=
    {| mean_temp := 20; max_temp := 25; min_temp := 14; discovery_temp := 22;
       req_latitude := 36.7783; req_longitude := -119.4179;
       state := "CA"; cause := "Campfire"; month := 1; day_of_year := 15;
       season := "Winter"; num_cities := 3;
       wind_speed := Some 5; wind_direction := Some 180 |} in
  mockRiskScore data == 59.5
  /\ risk_category (generateMockPrediction data 0) = "Moderate"%string
  /\ risk_score (generateMockPrediction data 0) == 60
  /\ RiskGauge.stroke
       (RiskGauge.getColor (risk_score (generateMockPrediction data 0)))
     = ApiHelpers.getRiskCategoryColor "High".
Proof. cbv zeta. repeat split. Qed.

(** X26.  [getSeasonFromMonth] agrees with the table [SEASONS]: every month
    the table lists under a season is mapped to that season, every month from
    1 to 12 is listed under exactly the season it is mapped to, and any other
    number is called Winter. *)
Theorem seasons_agree_with_table :
  (forall s m, In s ApiHelpers.SEASONS -> In m (ApiHelpers.months s) ->
     ApiHelpers.getSeasonFromMonth m = ApiHelpers.value s)
  /\ (forall m : Z, (1 <= m <= 12)%Z ->
        exists s, In s ApiHelpers.SEASONS
                  /\ In (inject_Z m) (ApiHelpers.months s)
                  /\ ApiHelpers.value s
                     = ApiHelpers.getSeasonFromMonth (inject_Z m))
  /\ (forall m : Q, m < 3 \/ 11 < m ->
        ApiHelpers.getSeasonFromMonth m = "Winter"%string).
Proof.
  split; [|split].
  - intros s m Hs Hm. simpl in Hs.
    destruct Hs as [<- | [<- | [<- | [<- | []]]]]; simpl in Hm;
      destruct Hm as [<- | [<- | [<- | []]]]; reflexivity.
  - intros m Hm.
    assert (C : (m = 1 \/ m = 2 \/ m = 3 \/ m = 4 \/ m = 5 \/ m = 6 \/ m = 7
                 \/ m = 8 \/ m = 9 \/ m = 10 \/ m = 11 \/ m = 12)%Z) by lia.
    destruct C as [-> | [-> | [-> | [-> | [-> | [-> | [-> | [-> | [->
                  | [-> | [-> | ->]]]]]]]]]]];
      first
        [ exists (nth 0 ApiHelpers.SEASONS (ApiHelpers.mkSeason "" "" []));
          split; [simpl; auto 10 | split; [simpl; auto 10 | reflexivity]]
        | exists (nth 1 ApiHelpers.SEASONS (ApiHelpers.mkSeason "" "" []));
          split; [simpl; auto 10 | split; [simpl; auto 10 | reflexivity]]
        | exists (nth 2 ApiHelpers.SEASONS (ApiHelpers.mkSeason "" "" []));
          split; [simpl; auto 10 | split; [simpl; auto 10 | reflexivity]]
        | exists (nth 3 ApiHelpers.SEASONS (ApiHelpers.mkSeason "" "" []));
          split; [simpl; auto 10 | split; [simpl; auto 10 | reflexivity]] ].
  - intros m Hm. unfold ApiHelpers.getSeasonFromMonth.
    destruct Hm as [Hm | Hm].
    + assert (E : Qle_bool 3 m = false).
      { destruct (Qle_bool 3 m) eqn:E; [|reflexivity].
        apply Qle_bool_iff in E. lra. }
      assert (E6 : Qle_bool 6 m = false).
      { destruct (Qle_bool 6 m) eqn:E'; [|reflexivity].
        apply Qle_bool_iff in E'. lra. }
      assert (E9 : Qle_bool 9 m = false).
      { destruct (Qle_bool 9 m) eqn:E'; [|reflexivity].
        apply Qle_bool_iff in E'. lra. }
      now rewrite E, E6, E9.
    + assert (E : Qle_bool m 5 = false).
      { destruct (Qle_bool m 5) eqn:E; [|reflexivity].
        apply Qle_bool_iff in E. lra. }
      assert (E8 : Qle_bool m 8 = false).
      { destruct (Qle_bool m 8) eqn:E'; [|reflexivity].
        apply Qle_bool_iff in E'. lra. }
      assert (E11 : Qle_bool m 11 = false).
      { destruct (Qle_bool m 11) eqn:E'; [|reflexivity].
        apply Qle_bool_iff in E'. lra. }
      rewrite E, E8, E11. now rewrite !andb_false_r.
Qed.

End MockPredictionFacts.

(** ** The score animation of the gauge *)

Module RiskGaugeFacts.
Import Floats RiskGauge.
Local Open Scope Z_scope.

(** The whole number a double holds. *)
Definition to_Z (x : float) : Z :=
  match Prim2SF x with
  | S754_finite s m e =>
      let num := if s then Z.neg m else Z.pos m in
      if 0 <=? e then num * 2 ^ e else Z.shiftr num (- e)
  | _ => 0
  end.

Fixpoint nondecreasing (ks : list Z) : bool :=
  match ks with
  | k :: (k' :: _) as rest => (k <=? k') && nondecreasing rest
  | _ => true
  end.

Lemma nondecreasing_Sorted (ks : list Z) :
  nondecreasing ks = true -> Sorted Z.le ks.
Proof.
  induction ks as [|k [|k' rest] IH]; intros H.
  - constructor.
  - repeat constructor.
  - cbn [nondecreasing] in H. apply andb_prop in H. destruct H as [Hk H].
    constructor; [now apply IH|]. constructor. now apply Z.leb_le.
Qed.

Lemma within_Forall (z : Z) (ks : list Z) :
  forallb (fun k => (0 <=? k) && (k <=? z)) ks = true ->
  Forall (fun k => 0 <= k <= z) ks.
Proof.
  intros H. apply Forall_forall. intros k Hk.
  rewrite forallb_forall in H. specialize (H k Hk).
  apply andb_prop in H. destruct H as [H1 H2].
  split; now apply Z.leb_le.
Qed.

(** Ticks beyond the one that clears the timer change nothing. *)
Lemma gauge_animation_more (ticks more : nat) (score current : float)
    (shown : list float) :
  animation ticks score current = Some shown ->
  animation (ticks + more) score current = Some shown.
Proof.
  revert current shown.
  induction ticks as [|ticks IH]; intros current shown H; [discriminate H|].
  cbn [Nat.add animation] in *.
  destruct (tick score current) as [[d current'] cleared].
  destruct cleared; [exact H|].
  destruct (animation ticks score current') as [rest|] eqn:E;
    [|discriminate H].
  now rewrite (IH _ _ E).
Qed.

(** What the gauge displays within 61 ticks for a whole score, as whole
    numbers. *)
Definition displayed (z : Z) (ks : list Z) : Prop :=
  animation 61 (of_Z z) 0%float = Some (map of_Z ks)
  /\ last ks 0 = z
  /\ Forall (fun k => 0 <= k <= z) ks
  /\ Sorted Z.le ks
  /\ (z = 0 -> ks = [0])
  /\ (0 < z -> List.length ks = 60%nat \/ List.length ks = 61%nat).

(** The animation is run on the doubles, and what it displays is checked. *)
Ltac displayed_by_evaluation :=
  match goal with
  | |- exists ks, displayed ?z ks =>
      let r := eval vm_compute in
                 (option_map (map to_Z) (animation 61 (of_Z z) 0%float)) in
      match r with
      | Some ?ks =>
          exists ks; unfold displayed;
          split; [vm_compute; reflexivity|];
          split; [vm_compute; reflexivity|];
          split; [apply within_Forall; vm_compute; reflexivity|];
          split; [apply nondecreasing_Sorted; vm_compute; reflexivity|];
          split;
          [ first [ intros _; reflexivity | intros H; discriminate H ]
          | first [ intros H; discriminate H
                  | intros _; left; reflexivity
                  | intros _; right; reflexivity ] ]
      end
  end.

Lemma displayed_whole_scores (n : nat) :
  (n <= 100)%nat -> exists ks, displayed (Z.of_nat n) ks.
Proof.
  intros Hn.
  do 101 (destruct n as [|n]; [displayed_by_evaluation|]).
  lia.
Qed.

(** X27.  For every whole score from 0 to 100 the score animation of the
    gauge, run on doubles, stops by itself within 61 ticks.  The values it
    displays are whole numbers from 0 to the score that never decrease, and
    the last one is the score itself.  A score of 0 is displayed at the first
    tick; any other score takes 60 or 61 ticks. *)
Theorem gauge_animation_ends_on_score (z : Z) (ticks : nat) :
  0 <= z <= 100 ->
  (61 <= ticks)%nat ->
  exists ks : list Z,
    animateScore true ticks (of_Z z) = Some (map of_Z ks)
    /\ last ks 0 = z
    /\ Forall (fun k => 0 <= k <= z) ks
    /\ Sorted Z.le ks
    /\ (z = 0 -> ks = [0])
    /\ (0 < z -> List.length ks = 60%nat \/ List.length ks = 61%nat).
Proof.
  intros Hz Ht.
  destruct (displayed_whole_scores (Z.to_nat z)) as (ks & Ha & Hrest);
    [lia|].
  rewrite Z2Nat.id in Ha, Hrest by lia.
  exists ks. split; [|exact Hrest].
  unfold animateScore. cbn [negb].
  replace ticks with (61 + (ticks - 61))%nat by lia.
  now apply gauge_animation_more.
Qed.

Lemma gauge_animation_ends_on_score_witness :
  exists ks : list Z,
    animateScore true 61 (of_Z 87) = Some (map of_Z ks) /\ last ks 0 = 87.
Proof.
  destruct (gauge_animation_ends_on_score 87 61) as (ks & Ha & Hl & _).
  - lia.
  - lia.
  - exists ks. split; assumption.
Defined.

(** Sixty ticks are not always enough, and a displayed value can be one
    below the rounded fraction of the score: for the score 3 the timer is
    cleared at tick 61 only, and for the score 87 tick 10 displays 14 where
    10/60 of 87 is 14.5. *)
Example drift_of_the_running_sum :
  animateScore true 60 (of_Z 3) = None
  /\ (exists shown,
        animateScore true 61 (of_Z 3) = Some shown
        /\ List.length shown = 61%nat)
  /\ exists shown,
       animateScore true 60 (of_Z 87) = Some shown
       /\ nth 9 shown 0%float = of_Z 14.
Proof.
  split; [vm_compute; reflexivity|]. split.
  - eexists. split; vm_compute; reflexivity.
  - eexists. split; vm_compute; reflexivity.
Qed.

End RiskGaugeFacts.

(** ** The checklist of the response plan *)

Module RecommendationsPanelFacts.
Import RecommendationsPanel.
Local Open Scope nat_scope.

Lemma has_In (s : CheckedActions) (index : nat) :
  has s index = true <-> In index s.
Proof.
  unfold has. rewrite existsb_exists. split.
  - intros (x & Hx & E). apply Nat.eqb_eq in E. now subst.
  - intros H. exists index. split; [exact H | apply Nat.eqb_refl].
Qed.

Lemma has_app (s t : CheckedActions) (index : nat) :
  has (s ++ t) index = has s index || has t index.
Proof. unfold has. apply existsb_app. Qed.

Lemma has_filter (s : CheckedActions) (i j : nat) :
  has (filter (fun x => negb (Nat.eqb i x)) s) j
  = negb (Nat.eqb i j) && has s j.
Proof.
  apply eq_true_iff_eq.
  rewrite has_In, filter_In, andb_true_iff, has_In. tauto.
Qed.

(** A click flips the box clicked and no other. *)
Lemma has_toggleAction (s : CheckedActions) (i j : nat) :
  has (toggleAction i s) j
  = if Nat.eqb i j then negb (has s j) else has s j.
Proof.
  unfold toggleAction. destruct (has s i) eqn:E.
  - rewrite has_filter. destruct (Nat.eqb i j) eqn:Eij; [|reflexivity].
    apply Nat.eqb_eq in Eij. subst j. now rewrite E.
  - rewrite has_app. unfold has at 2. cbn [existsb]. rewrite orb_false_r.
    destruct (Nat.eqb i j) eqn:Eij.
    + apply Nat.eqb_eq in Eij. subst j. rewrite E, Nat.eqb_refl. reflexivity.
    + rewrite Nat.eqb_sym, Eij. apply orb_false_r.
Qed.

Lemma NoDup_toggleAction (s : CheckedActions) (i : nat) :
  NoDup s -> NoDup (toggleAction i s).
Proof.
  intros H. unfold toggleAction. destruct (has s i) eqn:E.
  - now apply NoDup_filter.
  - apply NoDup_app; [exact H | repeat constructor; intros [] |].
    intros x Hx [<- | []]. apply has_In in Hx. congruence.
Qed.

Lemma has_clicks (clicks : list nat) (s : CheckedActions) (j : nat) :
  has (fold_left (fun s index => toggleAction index s) clicks s) j
  = xorb (has s j) (Nat.odd (count_occ Nat.eq_dec clicks j)).
Proof.
  revert s. induction clicks as [|i clicks IH]; intros s.
  - cbn. now rewrite xorb_false_r.
  - cbn [fold_left count_occ]. rewrite IH, has_toggleAction.
    destruct (Nat.eq_dec i j) as [->|N].
    + rewrite Nat.eqb_refl, Nat.odd_succ, <- Nat.negb_odd.
      destruct (has s j), (Nat.odd (count_occ Nat.eq_dec clicks j));
        reflexivity.
    + apply Nat.eqb_neq in N. now rewrite N.
Qed.

Lemma NoDup_clicks (clicks : list nat) (s : CheckedActions) :
  NoDup s ->
  NoDup (fold_left (fun s index => toggleAction index s) clicks s).
Proof.
  revert s. induction clicks as [|i clicks IH]; intros s H; [exact H|].
  cbn [fold_left]. apply IH. now apply NoDup_toggleAction.
Qed.

(** X28.  A box of the checklist is ticked exactly when it has been clicked an
    odd number of times, whatever the order of the clicks; in particular a
    second click on a box undoes the first. *)
Theorem box_is_ticked_iff_clicked_odd_times (clicks : list nat) (index : nat) :
  has (afterClicks clicks) index
  = Nat.odd (count_occ Nat.eq_dec clicks index).
Proof. unfold afterClicks. now rewrite has_clicks. Qed.

(** X29.  The counter "n/m completed" never counts a box twice and, as long as
    every click is on one of the [m] actions listed, never exceeds [m]; it
    equals [m] exactly when every box is ticked. *)
Theorem completed_counter_is_bounded (clicks : list nat) (m : nat) :
  Forall (fun index => index < m) clicks ->
  NoDup (afterClicks clicks)
  /\ size (afterClicks clicks) <= m
  /\ (size (afterClicks clicks) = m <->
      forall index, index < m -> has (afterClicks clicks) index = true).
Proof.
  intros Hc.
  assert (Hd : NoDup (afterClicks clicks)).
  { unfold afterClicks. apply NoDup_clicks. constructor. }
  assert (Hin : incl (afterClicks clicks) (seq 0 m)).
  { intros x Hx. apply in_seq. split; [lia|]. cbn.
    apply has_In in Hx. unfold afterClicks in Hx. rewrite has_clicks in Hx.
    cbn [has existsb xorb] in Hx.
    destruct (count_occ Nat.eq_dec clicks x) eqn:Ec; [discriminate Hx|].
    assert (Hx' : In x clicks) by (apply (count_occ_In Nat.eq_dec); lia).
    rewrite Forall_forall in Hc. now apply Hc. }
  pose proof (NoDup_incl_length Hd Hin) as Hle. rewrite length_seq in Hle.
  split; [exact Hd|]. split; [exact Hle|]. split.
  - intros Hs index Hi. apply has_In.
    apply (NoDup_length_incl Hd (l' := seq 0 m)); [| exact Hin | apply in_seq; lia].
    unfold size in Hs. rewrite Hs, length_seq. lia.
  - intros Hall. apply Nat.le_antisymm; [exact Hle|].
    unfold size. rewrite <- (length_seq m 0) at 1.
    apply NoDup_incl_length; [apply seq_NoDup|].
    intros x Hx. apply in_seq in Hx. apply has_In, Hall. lia.
Qed.

Lemma completed_counter_is_bounded_witness :
  size (afterClicks [0; 2; 0; 1]%nat) <= 3.
Proof.
  refine (proj1 (proj2 (completed_counter_is_bounded [0; 2; 0; 1]%nat 3 _))).
  repeat constructor.
Defined.

End RecommendationsPanelFacts.

(** ** Refreshing the map of the viewer *)

Module FireMapRefreshFacts.
Import FireMapViewer FireMapRefresh.

Lemma refreshes_app (xs ys : list FireMapOutcome) (st : ViewerState) :
  refreshes (xs ++ ys) st = refreshes ys (refreshes xs st).
Proof. unfold refreshes. apply fold_left_app. Qed.

(** Failed requests leave the map data as they are. *)
Lemma failed_keep_mapData (outcomes : list FireMapOutcome) (st : ViewerState) :
  forallb failed outcomes = true ->
  mapData (refreshes outcomes st) = mapData st.
Proof.
  revert st. induction outcomes as [|o outcomes IH]; intros st H.
  - reflexivity.
  - cbn [forallb] in H. apply andb_prop in H. destruct H as [Ho H].
    unfold refreshes. cbn [fold_left]. fold (refreshes outcomes (fetchMap o st)).
    rewrite IH by exact H. destruct o; [reflexivity | discriminate Ho].
Qed.

(** Map data once received are never dropped. *)
Lemma mapData_stays (outcomes : list FireMapOutcome) (st : ViewerState) :
  mapData st <> None -> mapData (refreshes outcomes st) <> None.
Proof.
  revert st. induction outcomes as [|o outcomes IH]; intros st H.
  - exact H.
  - unfold refreshes. cbn [fold_left]. fold (refreshes outcomes (fetchMap o st)).
    apply IH. destruct o; cbn; [exact H | discriminate].
Qed.

Lemma no_mapData_all_failed (outcomes : list FireMapOutcome)
    (st : ViewerState) :
  mapData (refreshes outcomes st) = None -> forallb failed outcomes = true.
Proof.
  revert st. induction outcomes as [|o outcomes IH]; intros st H.
  - reflexivity.
  - unfold refreshes in H. cbn [fold_left] in H.
    fold (refreshes outcomes (fetchMap o st)) in H.
    cbn [forallb]. rewrite (IH _ H), andb_true_r.
    destruct o as [message | data]; [reflexivity|].
    exfalso. revert H. apply mapData_stays. discriminate.
Qed.

(** X30.  Once the viewer has received a map, requests that fail afterwards
    change nothing on screen: it keeps showing the figures of the last map
    received, and the failure is recorded in [error] without being shown.  The
    error card is only shown while no request has ever succeeded, and then with
    the message of the latest failure. *)
Theorem failed_refresh_keeps_the_last_map :
  (forall (before after : list FireMapOutcome) (data : FireMapResponse)
          (st : ViewerState),
     forallb failed after = true ->
     let final := refreshes (before ++ MapOk data :: after) st in
     render final = MapView (Some (populationPanel data))
     /\ loading final = false
     /\ (after = [] -> error final = None)
     /\ (forall rest message,
           after = rest ++ [MapFailed message] ->
           error final = Some message))
  /\ (forall (outcomes : list FireMapOutcome) (message : string),
        render (refreshes outcomes mounted) = ErrorCard message ->
        forallb failed outcomes = true
        /\ exists rest, outcomes = rest ++ [MapFailed message]).
Proof.
  split.
  - intros before after data st Hf final. subst final.
    rewrite refreshes_app.
    change (refreshes (MapOk data :: after) (refreshes before st))
      with (refreshes after (fetchMap (MapOk data) (refreshes before st))).
    set (st1 := fetchMap (MapOk data) (refreshes before st)).
    pose proof (failed_keep_mapData after st1 Hf) as Hm.
    change (mapData st1) with (Some data) in Hm.
    split; [unfold render; now rewrite Hm|].
    split; [|split].
    + destruct after as [|o after _] using rev_ind; [reflexivity|].
      rewrite refreshes_app. cbn. now destruct o.
    + intros ->. reflexivity.
    + intros rest message ->. rewrite refreshes_app. reflexivity.
  - intros outcomes message Hr.
    assert (Hm : mapData (refreshes outcomes mounted) = None).
    { unfold render in Hr.
      destruct (mapData (refreshes outcomes mounted)); [discriminate Hr|].
      reflexivity. }
    pose proof (no_mapData_all_failed outcomes mounted Hm) as Hf.
    split; [exact Hf|].
    destruct outcomes as [|o outcomes _] using rev_ind; [discriminate Hr|].
    exists outcomes. f_equal.
    rewrite forallb_app in Hf. apply andb_prop in Hf. destruct Hf as [_ Ho].
    destruct o as [m | data]; [|discriminate Ho].
    rewrite refreshes_app in Hr, Hm. cbn in Hm.
    unfold render in Hr. cbn in Hr. rewrite Hm in Hr.
    destruct (String.eqb m ""); [discriminate Hr|].
    injection Hr as ->. reflexivity.
Qed.

End FireMapRefreshFacts.
